(** * A shallow embedding of [tar.py]

    The archiver packs file system entries into 512-byte ustar header
    records followed by block-padded data ([add], [create]) and scans such
    archives back ([extract], [list_content]).

    Conventions of the embedding:
    - text and binary data are both byte strings ([list byte]). For ASCII
      text under a [SYSTEM_ENCODING] that extends ASCII this is what
      Python 3 computes: cutting characters and encoding them is cutting
      bytes, and decoding never fails. The statements that depend on it
      take the names to be [isascii];
    - a read of a negative count reads to the end of the file, as Python 3
      does for the count -1; the statements about reads take sizes that
      are not negative;
    - Python integers are [Z];
    - a raised exception is the left injection of a sum ([exception + A]);
    - an open binary file being read is the list of its unread bytes;
    - the operating system is a record of the queries the program makes
      ([OS]), with the answers it gives all through a run; the archive
      being written and the tree being extracted to are threaded as
      explicit state, apart from that record. A statement about more than
      one step therefore takes the files it reads to be other files than
      the archive ([same_file]). *)

From Stdlib Require Import ZArith Lia List Strings.Byte Strings.String.
From stdpp Require Import gmap list.
From Equations Require Import Equations.
Import ListNotations.
Local Open Scope Z_scope.

(** ** Bytes *)

Abbreviation bytes := (list byte).

#[global] Instance byte_eq_dec : EqDecision byte := Byte.byte_eq_dec.
#[global] Instance byte_countable : Countable byte :=
  inj_countable Byte.to_N Byte.of_N Byte.of_to_N.

(** [ord] and [chr] on single bytes. *)
Definition ord (c : byte) : Z := Z.of_N (Byte.to_N c).
Definition chr (n : Z) : byte := default x00 (Byte.of_N (Z.to_N n)).

(** A byte string literal. *)
Definition str (s : string) : bytes := list_byte_of_string s.

(** ** Exceptions *)

(** [FileExistsError] is a kind of [OSError]: a handler of [OSError] takes
    it too. *)
Inductive exception := ValueError | TypeError | KeyError | OSError | FileExistsError.

Definition bind {A B} (m : exception + A) (k : A -> exception + B) : exception + B :=
  match m with
  | inl e => inl e
  | inr a => k a
  end.

Notation "x <- m ;; k" := (bind m (fun x => k))
  (at level 100, m at next level, right associativity).

Definition inspect {A} (a : A) : {x | a = x} := exist _ a eq_refl.

(** ** The Python builtins the program relies on *)

Module Py.

(** [sum(xs)]: a left fold from 0. *)
Definition sum (xs : list Z) : Z := fold_left Z.add xs 0.

(** Octal digits of a non-negative integer, most significant first.
    [fuel] bounds the number of digits produced. *)
Fixpoint oct_digits (fuel : nat) (n : Z) : bytes :=
  match fuel with
  | O => []
  | S fuel' =>
      (if n <? 8 then [] else oct_digits fuel' (n / 8)) ++ [chr (48 + n mod 8)]
  end.

Definition oct (n : Z) : bytes := oct_digits (S (Z.to_nat (Z.log2 n))) n.

(** ['{:0Wo}'.format(n)]: sign-aware zero padding to [width] characters;
    ['{:o}'.format(n)] is [format_o 0 n]. *)
Definition format_o (width : nat) (n : Z) : bytes :=
  let sign := if n <? 0 then str "-" else [] in
  let digits := oct (Z.abs n) in
  sign ++ replicate (width - length sign - length digits) "0"%byte ++ digits.

(** Whitespace as [int] and [bytes.strip] see it. *)
Definition isspace (c : byte) : bool :=
  let n := ord c in ((9 <=? n) && (n <=? 13)) || (n =? 32).

Fixpoint lstrip (s : bytes) : bytes :=
  match s with
  | c :: s' => if isspace c then lstrip s' else s
  | [] => []
  end.
Definition rstrip (s : bytes) : bytes := rev (lstrip (rev s)).
Definition strip (s : bytes) : bytes := rstrip (lstrip s).

Definition digit_value (c : byte) : option Z :=
  let n := ord c in if (48 <=? n) && (n <=? 55) then Some (n - 48) else None.

(** The digit loop of [int(text, 8)]: consumes octal digits and single
    underscores between them; [prev] tells whether the previous character
    was an underscore. Returns the value and the unread rest, or [None]
    on a doubled or trailing underscore. *)
Fixpoint int_digits (s : bytes) (prev : bool) (acc : Z) : option (Z * bytes) :=
  match s with
  | [] => if prev then None else Some (acc, [])
  | c :: s' =>
      if Byte.eqb c "_" then
        if prev then None else int_digits s' true acc
      else
        match digit_value c with
        | Some d => int_digits s' false (acc * 8 + d)
        | None => if prev then None else Some (acc, s)
        end
  end.

Definition int_sign (s : bytes) : bool * bytes :=
  match s with
  | c :: s' =>
      if Byte.eqb c "+" then (false, s')
      else if Byte.eqb c "-" then (true, s')
      else (false, s)
  | [] => (false, s)
  end.

Definition int_prefix (s : bytes) : bytes :=
  match s with
  | c0 :: c1 :: s' =>
      if Byte.eqb c0 "0" && (Byte.eqb c1 "o" || Byte.eqb c1 "O")
      then match s' with
           | u :: s'' => if Byte.eqb u "_" then s'' else s'
           | [] => s'
           end
      else s
  | _ => s
  end.

(** [int(text, 8)] on a byte string without NUL bytes: optional
    surrounding whitespace, a sign, an optional [0o] prefix, then at least
    one octal digit; anything else raises [ValueError]. *)
Definition int8 (text : bytes) : exception + Z :=
  let '(negative, s) := int_sign (lstrip text) in
  let s := int_prefix s in
  match s with
  | [] => inl ValueError
  | c :: _ =>
      if Byte.eqb c "_" then inl ValueError
      else
        match int_digits s false 0 with
        | None => inl ValueError
        | Some (v, rest) =>
            if (length rest =? length s)%nat then inl ValueError
            else match lstrip rest with
                 | [] => inr (if negative then - v else v)
                 | _ :: _ => inl ValueError
                 end
        end
  end.

(** An open binary file being read: its unread bytes. [read f n] returns
    the bytes read and the file afterwards; a negative [n] reads to the
    end of the file (Python 3 does so for -1 only, and refuses a count
    below). *)
Definition read (f : bytes) (n : Z) : bytes * bytes :=
  if n <? 0 then (f, []) else (take (Z.to_nat n) f, drop (Z.to_nat n) f).

(** [math.ceil(x / 512.0)] for an integer [x]: the division by a power of
    two is exact in floating point for every |x| < 2^53, far above what a
    12-digit octal field or a file size can hold. *)
Definition ceil_div512 (x : Z) : Z := - ((- x) / 512).

End Py.

(** ** [ctypes]: packed structures of character fields

    A structure instance is its memory, a byte string of the structure's
    size. A [c_char * n] field is read as a C string (up to the first NUL,
    at most [n] bytes) and written from the C string of the assigned value:
    longer than [n] raises [ValueError], shorter is followed by one NUL,
    and the bytes after it keep their old value. A [c_char] field holds
    exactly one byte. *)

Module ctypes.

Inductive ctype := c_char | c_char_array (n : nat).

Definition sizeof (t : ctype) : nat :=
  match t with
  | c_char => 1
  | c_char_array n => n
  end.

(** The bytes of [data] before its first NUL. *)
Fixpoint c_str (data : bytes) : bytes :=
  match data with
  | [] => []
  | c :: data' => if Byte.eqb c x00 then [] else c :: c_str data'
  end.

(** Overwrite [length data] bytes of [mem] from [offset] on. *)
Definition poke (mem : bytes) (offset : nat) (data : bytes) : bytes :=
  take offset mem ++ data ++ drop (offset + length data) mem.

Definition getfield (mem : bytes) (offset : nat) (t : ctype) : bytes :=
  match t with
  | c_char => take 1 (drop offset mem)
  | c_char_array n => c_str (take n (drop offset mem))
  end.

Definition setfield (mem : bytes) (offset : nat) (t : ctype) (value : bytes)
  : exception + bytes :=
  match t with
  | c_char =>
      match value with
      | [c] => inr (poke mem offset [c])
      | _ => inl TypeError
      end
  | c_char_array n =>
      let data := c_str value in
      if (n <? length data)%nat then inl ValueError
      else inr (poke mem offset (if (length data <? n)%nat then data ++ [x00] else data))
  end.

End ctypes.

(** ** Constants of the archive format *)

Definition TAR_TYPE_REGULAR_FILE : bytes := str "0".
Definition TAR_TYPE_REGULAR_FILE_ALIAS : bytes := [x00].
Definition TAR_TYPE_HARDLINK : bytes := str "1".
Definition TAR_TYPE_SYMLINK : bytes := str "2".
Definition TAR_TYPE_CHAR : bytes := str "3".
Definition TAR_TYPE_BLOCK : bytes := str "4".
Definition TAR_TYPE_DIR : bytes := str "5".
Definition TAR_TYPE_FIFO : bytes := str "6".
Definition TAR_TYPE_CONTIGUOUS : bytes := str "7".

Definition TYPE_FLAGS : gmap bytes bytes :=
  list_to_map
    [ (TAR_TYPE_REGULAR_FILE, str "-");
      (TAR_TYPE_REGULAR_FILE_ALIAS, str "-");
      (TAR_TYPE_HARDLINK, str "h");
      (TAR_TYPE_SYMLINK, str "l");
      (TAR_TYPE_CHAR, str "c");
      (TAR_TYPE_BLOCK, str "b");
      (TAR_TYPE_DIR, str "d");
      (TAR_TYPE_FIFO, str "p") ].

(** ** [TarHeader], the ustar header structure *)

Module TarHeader.

Inductive field :=
  | name | mode | uid | gid | size | mtime | chksum | typeflag | linkname
  | magic | version | uname | gname | devmajor | devminor | prefix | pad.

#[global] Instance field_eq_dec : EqDecision field.
Proof. solve_decision. Defined.

Definition _fields_ : list (field * ctypes.ctype) :=
  [ (name, ctypes.c_char_array 100);
    (mode, ctypes.c_char_array 8);
    (uid, ctypes.c_char_array 8);
    (gid, ctypes.c_char_array 8);
    (size, ctypes.c_char_array 12);
    (mtime, ctypes.c_char_array 12);
    (chksum, ctypes.c_char_array 8);
    (typeflag, ctypes.c_char);
    (linkname, ctypes.c_char_array 100);
    (magic, ctypes.c_char_array 6);
    (version, ctypes.c_char_array 2);
    (uname, ctypes.c_char_array 32);
    (gname, ctypes.c_char_array 32);
    (devmajor, ctypes.c_char_array 8);
    (devminor, ctypes.c_char_array 8);
    (prefix, ctypes.c_char_array 155);
    (pad, ctypes.c_char_array 12) ].

(** With [_pack_ = 1] the fields follow each other without gaps. *)
Fixpoint layout (fields : list (field * ctypes.ctype)) (f : field) (offset : nat)
  : nat * ctypes.ctype :=
  match fields with
  | [] => (offset, ctypes.c_char)
  | (g, t) :: fields' =>
      if decide (f = g) then (offset, t) else layout fields' f (offset + ctypes.sizeof t)
  end.

Definition offsetof (f : field) : nat := (layout _fields_ f 0).1.
Definition typeof (f : field) : ctypes.ctype := (layout _fields_ f 0).2.
Definition width (f : field) : nat := ctypes.sizeof (typeof f).

Definition sizeof : nat := foldr (fun ft n => ctypes.sizeof ft.2 + n)%nat 0%nat _fields_.

(** [TarHeader()]: zero-initialised. *)
Definition new : bytes := replicate sizeof x00.

(** [tar_header.f] *)
Definition get (h : bytes) (f : field) : bytes :=
  ctypes.getfield h (offsetof f) (typeof f).

(** [tar_header.f = value] *)
Definition set (h : bytes) (f : field) (value : bytes) : exception + bytes :=
  ctypes.setfield h (offsetof f) (typeof f) value.

(** [in_file.readinto(tar_header)]: fills the structure with up to
    [sizeof] bytes; what the file cannot supply keeps its old value. *)
Definition readinto (in_file : bytes) (h : bytes) : bytes * bytes :=
  let '(data, in_file') := Py.read in_file (Z.of_nat sizeof) in
  (ctypes.poke h 0 data, in_file').

End TarHeader.

(** ** [stat]: file modes *)

Module stat.

Definition S_IFMT (mode : Z) : Z := Z.land mode 0xF000.
Definition S_IFDIR : Z := 0x4000.
Definition S_IFCHR : Z := 0x2000.
Definition S_IFBLK : Z := 0x6000.
Definition S_IFREG : Z := 0x8000.
Definition S_IFIFO : Z := 0x1000.
Definition S_IFLNK : Z := 0xA000.

Definition S_ISDIR (mode : Z) : bool := S_IFMT mode =? S_IFDIR.
Definition S_ISCHR (mode : Z) : bool := S_IFMT mode =? S_IFCHR.
Definition S_ISBLK (mode : Z) : bool := S_IFMT mode =? S_IFBLK.
Definition S_ISREG (mode : Z) : bool := S_IFMT mode =? S_IFREG.
Definition S_ISFIFO (mode : Z) : bool := S_IFMT mode =? S_IFIFO.
Definition S_ISLNK (mode : Z) : bool := S_IFMT mode =? S_IFLNK.

End stat.

(** ** The operating system, as the program queries it *)

(** [st_mtime] holds the whole seconds, [int(file_stat.st_mtime)]. *)
Record stat_result := {
  st_mode : Z;
  st_ino : Z;
  st_dev : Z;
  st_uid : Z;
  st_gid : Z;
  st_size : Z;
  st_mtime : Z;
}.

Record OS := {
  (** the metadata of the directory entry itself, [None] where there is none *)
  lstat : bytes -> option stat_result;
  (** [os.path.realpath]: the path with every symbolic link resolved *)
  realpath : bytes -> bytes;
  (** what [open(path, 'rb')] delivers *)
  open_rb : bytes -> exception + bytes;
  (** [os.walk(top)], fully enumerated *)
  walk : bytes -> list (bytes * list bytes * list bytes);
  (** [getpass.getuser()] *)
  getuser : bytes;
  (** whether the modules [pwd] and [grp] can be imported *)
  has_pwd : bool;
  (** [pwd.getpwnam(name)] as [(pw_uid, pw_gid)], [None] for [KeyError] *)
  getpwnam : bytes -> option (Z * Z);
  (** [grp.getgrgid(gid).gr_name], [None] for [KeyError] *)
  getgrgid : Z -> option bytes;
}.

Module os.

(** [os.stat] follows symbolic links: it reports on the entry the resolved
    path names, and fails where the resolution does not reach one (a
    dangling or cyclic link). Only [os.lstat], which the program never
    calls, reports on a link itself. *)
Definition stat (w : OS) (path : bytes) : exception + stat_result :=
  match lstat w (realpath w path) with
  | Some st => if stat.S_ISLNK (st_mode st) then inl OSError else inr st
  | None => inl OSError
  end.

Definition path_exists (w : OS) (path : bytes) : bool :=
  match stat w path with
  | inr _ => true
  | inl _ => false
  end.

Definition path_isfile (w : OS) (path : bytes) : bool :=
  match stat w path with
  | inr st => stat.S_ISREG (st_mode st)
  | inl _ => false
  end.

Definition path_getsize (w : OS) (path : bytes) : exception + Z :=
  st <- stat w path ;; inr (st_size st).

Definition sep : byte := "/"%byte.

Definition startswith_sep (p : bytes) : bool :=
  match p with
  | c :: _ => Byte.eqb c sep
  | [] => false
  end.

Definition endswith_sep (p : bytes) : bool := startswith_sep (rev p).

(** [os.path.join(a, b)] *)
Definition path_join (a b : bytes) : bytes :=
  if startswith_sep b then b
  else if bool_decide (a = []) || endswith_sep a then a ++ b
  else a ++ [sep] ++ b.

(** [(p[:i], p[i:])] for [i = p.rfind('/') + 1] *)
Fixpoint rpartition_sep (p : bytes) : bytes * bytes :=
  match p with
  | [] => ([], [])
  | c :: p' =>
      let '(h, t) := rpartition_sep p' in
      match h with
      | [] => if Byte.eqb c sep then ([c], t) else ([], c :: t)
      | _ :: _ => (c :: h, t)
      end
  end.

Fixpoint lstrip_sep (p : bytes) : bytes :=
  match p with
  | c :: p' => if Byte.eqb c sep then lstrip_sep p' else p
  | [] => []
  end.

Definition rstrip_sep (p : bytes) : bytes := rev (lstrip_sep (rev p)).

(** [os.path.split] *)
Definition path_split (p : bytes) : bytes * bytes :=
  let '(head, tail) := rpartition_sep p in
  (if forallb (fun c => Byte.eqb c sep) head then head else rstrip_sep head, tail).

End os.

(** ** The helpers of [tar.py] *)

(** [get_group_name] *)
Definition get_group_name (w : OS) (username : bytes) : exception + bytes :=
  if negb (has_pwd w) then inr []
  else
    match getpwnam w username with
    | None => inl KeyError
    | Some (_, gid) =>
        match getgrgid w gid with
        | None => inl KeyError
        | Some gr_name => inr gr_name
        end
    end.

(** [get_uid_and_gid]; [None] is the pair of empty strings returned when
    [pwd] is missing. *)
Definition get_uid_and_gid (w : OS) (username : bytes) : exception + option (Z * Z) :=
  if negb (has_pwd w) then inr None
  else
    match getpwnam w username with
    | None => inl KeyError
    | Some ids => inr (Some ids)
    end.

(** [is_hard_link] *)
Definition is_hard_link (w : OS) (filename : bytes) : exception + bool :=
  file_stat <- os.stat w filename ;;
  if negb (stat.S_ISLNK (st_mode file_stat)) then inr false
  else
    let linkname := realpath w filename in
    link_file_stat <- os.stat w linkname ;;
    inr ((st_dev file_stat =? st_dev link_file_stat)
         && (st_ino file_stat =? st_ino link_file_stat)).

(** An in-memory stream, [io.BytesIO]. *)
Module BytesIO.

Record t := { buf : bytes; pos : nat }.

Definition new : t := {| buf := []; pos := 0 |}.

Definition write (s : t) (data : bytes) : t :=
  {| buf := take (pos s) (buf s) ++ replicate (pos s - length (buf s)) x00
              ++ data ++ drop (pos s + length data) (buf s);
     pos := pos s + length data |}.

Definition seek (s : t) (offset : nat) : t := {| buf := buf s; pos := offset |}.

Definition read (s : t) : bytes * t :=
  (drop (pos s) (buf s), {| buf := buf s; pos := Nat.max (pos s) (length (buf s)) |}).

End BytesIO.

(** [get_header_checksum] *)
Definition get_header_checksum (header : bytes) : Z :=
  let stream := BytesIO.new in
  let stream := BytesIO.write stream header in
  let stream := BytesIO.seek stream 0 in
  let '(data, _) := BytesIO.read stream in
  Py.sum (map ord data).

Lemma read_shrinks in_file n c chunk rest :
  Py.read in_file n = (c :: chunk, rest) -> (length rest < length in_file)%nat.
Proof.
  unfold Py.read. destruct (n <? 0); intros [= Hc Hr]; rewrite <- Hr.
  - rewrite Hc. simpl. lia.
  - rewrite length_drop.
    destruct (Z.to_nat n), in_file; simpl in *; try discriminate; lia.
Qed.

(** [read_file_in_chunks]: the chunks the generator yields when drained,
    and the file afterwards. [read_bytes] is the loop variable. *)
Equations? read_file_in_chunks_from (in_file : bytes) (file_size chunk_size read_bytes : Z)
  : list bytes * bytes by wf (length in_file) lt :=
  read_file_in_chunks_from in_file file_size chunk_size read_bytes
    with inspect (Py.read in_file (if read_bytes >? file_size - chunk_size
                                   then file_size - read_bytes   (* read last chunk *)
                                   else chunk_size)) := {
    | exist _ ([], in_file') _ := ([], in_file')
    | exist _ (c :: chunk, in_file') _ :=
        let r := read_file_in_chunks_from in_file' file_size chunk_size
                   (read_bytes + Z.of_nat (length (c :: chunk))) in
        ((c :: chunk) :: r.1, r.2) }.
Proof. eapply read_shrinks; eauto. Qed.

Definition read_file_in_chunks (in_file : bytes) (file_size : Z) (chunk_size : Z)
  : list bytes * bytes :=
  read_file_in_chunks_from in_file file_size chunk_size 0.

Definition default_chunk_size : Z := 8 * 1024.

(** [permission_bits] *)
Definition permission_bits (str_value : bytes) (typeflag : bytes) : exception + bytes :=
  value <- Py.int8 str_value ;;
  (* [ord(typeflag)] takes a string of one character *)
  if negb (length typeflag =? 1)%nat then inl TypeError else
  let bit (v mask : Z) (c : bytes) : bytes :=
    if Z.land v mask =? 0 then str "-" else c in
  let res := default (str "?") (TYPE_FLAGS !! typeflag) in
  (* user *)
  let res := res ++ bit (Z.shiftr value 6) 4 (str "r") in
  let res := res ++ bit (Z.shiftr value 6) 2 (str "w") in
  let res := res ++ bit (Z.shiftr value 6) 1 (str "x") in
  (* group *)
  let res := res ++ bit (Z.shiftr value 3) 4 (str "r") in
  let res := res ++ bit (Z.shiftr value 3) 2 (str "w") in
  let res := res ++ bit (Z.shiftr value 3) 1 (str "x") in
  (* other *)
  let res := res ++ bit value 4 (str "r") in
  let res := res ++ bit value 2 (str "w") in
  let res := res ++ bit value 1 (str "x") in
  inr res.

(** ** Writing archives *)

(** The archive file on disk: [None] while it does not exist. *)
Abbreviation archive_file := (option bytes).

(** [add], "set file type": the type flag and link name of an entry. An
    entry of no listed kind keeps the empty type flag. *)
Definition set_file_type (w : OS) (filename : bytes) (file_mode : Z)
  : exception + (bytes * bytes) :=
  if stat.S_ISREG file_mode then inr (TAR_TYPE_REGULAR_FILE, [])
  else if stat.S_ISLNK file_mode then
    let linkname := realpath w filename in
    hard <- is_hard_link w filename ;;
    inr (if hard : bool then TAR_TYPE_HARDLINK else TAR_TYPE_SYMLINK, linkname)
  else if stat.S_ISCHR file_mode then inr (TAR_TYPE_CHAR, [])
  else if stat.S_ISBLK file_mode then inr (TAR_TYPE_BLOCK, [])
  else if stat.S_ISDIR file_mode then inr (TAR_TYPE_DIR, [])
  else if stat.S_ISFIFO file_mode then inr (TAR_TYPE_FIFO, [])
  else inr ([], []).

(** [add], the header of an entry: every field assigned in turn, the
    checksum last. The names are cut as bytes: on ASCII names this is the
    cut of characters that the source makes before it encodes them. *)
Definition add_header (filename : bytes) (file_stat : stat_result)
    (typeflag linkname username group : bytes) : exception + bytes :=
  let tar_header := TarHeader.new in
  tar_header <- TarHeader.set tar_header TarHeader.name (take 99 filename) ;;
  tar_header <- TarHeader.set tar_header TarHeader.mode
                  (Py.format_o 7 (Z.land (st_mode file_stat) 0x1FF)) ;;
  tar_header <- TarHeader.set tar_header TarHeader.uid (Py.format_o 7 (st_uid file_stat)) ;;
  tar_header <- TarHeader.set tar_header TarHeader.gid (Py.format_o 7 (st_gid file_stat)) ;;
  tar_header <- TarHeader.set tar_header TarHeader.size
                  (Py.format_o 11 (if bool_decide (typeflag <> TAR_TYPE_DIR)
                                   then st_size file_stat else 0)) ;;
  tar_header <- TarHeader.set tar_header TarHeader.mtime (Py.format_o 0 (st_mtime file_stat)) ;;
  (* 8 spaces before real checksum calculation *)
  tar_header <- TarHeader.set tar_header TarHeader.chksum (replicate 8 " "%byte) ;;
  tar_header <- TarHeader.set tar_header TarHeader.typeflag typeflag ;;
  tar_header <- TarHeader.set tar_header TarHeader.linkname (take 99 linkname) ;;
  tar_header <- TarHeader.set tar_header TarHeader.magic (str "ustar" ++ [x00]) ;;
  tar_header <- TarHeader.set tar_header TarHeader.version (str "00") ;;
  tar_header <- TarHeader.set tar_header TarHeader.uname (take 32 username) ;;
  tar_header <- TarHeader.set tar_header TarHeader.gname group ;;
  tar_header <- TarHeader.set tar_header TarHeader.devmajor (str "0000000" ++ [x00]) ;;
  tar_header <- TarHeader.set tar_header TarHeader.devminor (str "0000000" ++ [x00]) ;;
  tar_header <- TarHeader.set tar_header TarHeader.prefix [] ;;
  tar_header <- TarHeader.set tar_header TarHeader.pad [] ;;
  (* update checksum *)
  TarHeader.set tar_header TarHeader.chksum (Py.format_o 6 (get_header_checksum tar_header)).

(** [add], what follows the header: the data if any, then the padding. *)
Definition add_body (w : OS) (filename typeflag : bytes) (file_size : Z)
  : exception + bytes :=
  data <- (if bool_decide (typeflag ∈ [TAR_TYPE_REGULAR_FILE; TAR_TYPE_HARDLINK; TAR_TYPE_SYMLINK])
              && negb (file_size =? 0)
           then
             in_file <- open_rb w filename ;;
             (* write a file in chunks *)
             inr (concat (read_file_in_chunks in_file file_size default_chunk_size).1)
           else inr []) ;;
  (* add padding *)
  inr (data ++ replicate (Z.to_nat (Py.ceil_div512 file_size * 512 - file_size)) x00).

(** [add]: the result flag and the archive afterwards. *)
Definition add (w : OS) (archive : archive_file) (filename : bytes)
  : exception + (bool * archive_file) :=
  if negb (os.path_exists w filename) then inr (false, archive)
  else
    (* get current user, group and IDs *)
    let username := getuser w in
    group <- get_group_name w username ;;
    _ <- get_uid_and_gid w username ;;
    file_stat <- os.stat w filename ;;
    tl <- set_file_type w filename (st_mode file_stat) ;;
    let '(typeflag, linkname) := tl in
    (* mode 'ab' if the archive exists, 'wb' otherwise *)
    let out := default [] archive in
    tar_header <- add_header filename file_stat typeflag linkname username group ;;
    file_size <- os.path_getsize w filename ;;
    body <- add_body w filename typeflag file_size ;;
    inr (true, Some (out ++ tar_header ++ body)).

(** A [for] loop whose body may raise. *)
Fixpoint for_each {A S} (xs : list A) (body : S -> A -> exception + S) (s : S)
  : exception + S :=
  match xs with
  | [] => inr s
  | x :: xs' => s' <- body s x ;; for_each xs' body s'
  end.

(** [result |= add(...)] *)
Definition add_to (w : OS) (st : bool * archive_file) (filename : bytes)
  : exception + (bool * archive_file) :=
  r <- add w st.2 filename ;;
  inr (st.1 || r.1, r.2).

(** [create]. The record [w] answers before the archive is emptied and
    for every [add] alike: the archive is taken not to be one of the paths
    that are added. *)
Definition create (w : OS) (archive : archive_file) (file_or_dir : bytes)
  : exception + (bool * archive_file) :=
  if negb (os.path_exists w file_or_dir) then inr (false, archive)
  else
    (* overwrite file on archive creation *)
    let archive := Some [] in
    let result := true in
    if os.path_isfile w file_or_dir then
      (* add file *)
      add_to w (result, archive) file_or_dir
    else
      for_each (walk w file_or_dir)
        (fun st '(dirname, dirs, files) =>
           (* add directory *)
           st <- add_to w st dirname ;;
           for_each files
             (fun st filename => add_to w st (os.path_join dirname filename)) st)
        (result, archive).

(** ** The tree [extract] writes to

    A finite map from paths to what is found there. Paths are compared as
    they are spelled; the empty path stands for the current directory when
    it is taken as a parent. A new file gets the permission bits
    [0o666 & ~umask]. *)

Inductive node :=
  | Directory
  | RegularFile (perm : Z) (data : bytes).

Abbreviation tree := (gmap bytes node).

Module fs.

(** A trailing separator does not change what a path names. *)
Definition norm (path : bytes) : bytes :=
  if forallb (fun c => Byte.eqb c os.sep) path then path else os.rstrip_sep path.

Definition exists_ (t : tree) (path : bytes) : bool :=
  bool_decide (is_Some (t !! norm path)).

Definition isdir (t : tree) (path : bytes) : bool :=
  match t !! norm path with
  | Some Directory => true
  | _ => false
  end.

(** Whether an entry may be created at [path]: it has a last component and
    lies in an existing directory. *)
Definition creatable (t : tree) (path : bytes) : bool :=
  let '(head, tail) := os.path_split path in
  negb (bool_decide (tail = [])) && (bool_decide (head = []) || isdir t head).

(** [os.mkdir] *)
Definition mkdir (t : tree) (path : bytes) : exception + tree :=
  if exists_ t path then inl FileExistsError
  else if creatable t (norm path) then inr (<[norm path := Directory]> t)
  else inl OSError.

Lemma rpartition_sep_length p :
  (length (os.rpartition_sep p).1 + length (os.rpartition_sep p).2 = length p)%nat.
Proof.
  induction p as [|c p IH]; simpl; [reflexivity|].
  destruct (os.rpartition_sep p) as [h t]; simpl in *.
  destruct h; [destruct (Byte.eqb c os.sep)|]; simpl in *; lia.
Qed.

Lemma lstrip_sep_length p : (length (os.lstrip_sep p) <= length p)%nat.
Proof. induction p as [|c p IH]; simpl; [lia|]. destruct (Byte.eqb c os.sep); simpl; lia. Qed.

Lemma rstrip_sep_length p : (length (os.rstrip_sep p) <= length p)%nat.
Proof.
  unfold os.rstrip_sep. rewrite length_rev.
  etransitivity; [apply lstrip_sep_length|]. by rewrite length_rev.
Qed.

Lemma path_split_length p :
  (length (os.path_split p).1 + length (os.path_split p).2 <= length p)%nat.
Proof.
  unfold os.path_split. pose proof (rpartition_sep_length p) as H.
  destruct (os.rpartition_sep p) as [h t]; simpl in *.
  destruct (forallb _ h); simpl; [lia|].
  pose proof (rstrip_sep_length h). lia.
Qed.

(** The head and tail [os.makedirs] works with: the path is split again
    when it ends in a separator. *)
Definition makedirs_split (name : bytes) : bytes * bytes :=
  let '(head, tail) := os.path_split name in
  if bool_decide (tail = []) then os.path_split head else (head, tail).

Lemma makedirs_split_length name head c tail :
  makedirs_split name = (head, c :: tail) -> (length head < length name)%nat.
Proof.
  unfold makedirs_split. pose proof (path_split_length name) as H.
  destruct (os.path_split name) as [h t]; simpl in *.
  case_bool_decide; intros Heq.
  - pose proof (path_split_length h) as H'. rewrite Heq in H'. simpl in *. lia.
  - injection Heq as -> ->. simpl in *. lia.
Qed.

(** [os.makedirs]: the missing ancestors first, then the directory itself. *)
Equations? makedirs (t : tree) (name : bytes) : exception + tree by wf (length name) lt :=
  makedirs t name with inspect (makedirs_split name) := {
    | exist _ (head_, []) _ := mkdir t name
    | exist _ (head_, c :: tail_) _ :=
        if negb (bool_decide (head_ = [])) && negb (exists_ t head_) then
          t' <- match makedirs t head_ with
                | inr t' => inr t'
                | inl FileExistsError => inr t      (* except FileExistsError: pass *)
                | inl e => inl e
                end ;;
          if bool_decide (c :: tail_ = str ".") then inr t' else mkdir t' name
        else mkdir t name }.
Proof. eapply makedirs_split_length; eauto. Qed.

(** [open(path, 'wb')]: creates the file or truncates it. *)
Definition open_wb (umask : Z) (t : tree) (path : bytes) : exception + tree :=
  if os.endswith_sep path then inl OSError else
  match t !! path with
  | Some Directory => inl OSError
  | Some (RegularFile perm _) => inr (<[path := RegularFile perm []]> t)
  | None =>
      if creatable t path
      then inr (<[path := RegularFile (Z.land 0x1B6 (Z.lnot umask)) []]> t)
      else inl OSError
  end.

(** [f.write(chunk)] on the file opened at [path] *)
Definition write (path : bytes) (t : tree) (chunk : bytes) : tree :=
  match t !! path with
  | Some (RegularFile perm data) => <[path := RegularFile perm (data ++ chunk)]> t
  | _ => t
  end.

End fs.

(** ** Reading archives *)

(** The outcome of one turn of a scanning loop. *)
Inductive turn (S : Type) :=
  | Break (s : S)
  | Continue (in_file : bytes) (s : S)
  | Raise (e : exception).
Arguments Break {S} s.
Arguments Continue {S} in_file s.
Arguments Raise {S} e.

Definition padding_size (file_size : Z) : Z :=
  Py.ceil_div512 file_size * 512 - file_size.

(** One turn of the loop of [extract]. The name is joined as the bytes it
    is; the source decodes it first, which does not fail on an ASCII
    name. *)
Definition extract_entry (umask : Z) (dest_path : bytes) (in_file : bytes) (t : tree)
  : turn tree :=
  let tar_header := TarHeader.new in
  let '(tar_header, in_file) := TarHeader.readinto in_file tar_header in
  let name := TarHeader.get tar_header TarHeader.name in
  if bool_decide (name = []) then Break t
  else
    match Py.int8 (TarHeader.get tar_header TarHeader.size) with
    | inl e => Raise e
    | inr file_size =>
        let out_path := os.path_join dest_path name in
        let typeflag := TarHeader.get tar_header TarHeader.typeflag in
        let r :=
          if bool_decide (typeflag ∈ [TAR_TYPE_REGULAR_FILE; TAR_TYPE_REGULAR_FILE_ALIAS]) then
            match fs.open_wb umask t out_path with
            | inl e => inl e
            | inr t =>
                (* write a file in chunks *)
                let '(chunks, in_file) :=
                  read_file_in_chunks in_file file_size default_chunk_size in
                inr (in_file, fold_left (fs.write out_path) chunks t)
            end
          else if bool_decide (typeflag = TAR_TYPE_DIR) then
            match fs.makedirs t out_path with
            | inr t => inr (in_file, t)
            | inl _ => inr (in_file, t)      (* except OSError: pass *)
            end
          else inr (in_file, t) in
        match r with
        | inl e => Raise e
        | inr (in_file, t) =>
            let '(_, in_file) := Py.read in_file (padding_size file_size) in
            Continue in_file t
        end
    end.

(** Reading never gives bytes back. *)
Lemma read_length in_file n :
  (length (Py.read in_file n).2 <= length in_file)%nat.
Proof.
  unfold Py.read. destruct (n <? 0); simpl; [lia|]. rewrite length_drop. lia.
Qed.

Lemma read_file_in_chunks_from_length in_file file_size chunk_size read_bytes :
  (length (read_file_in_chunks_from in_file file_size chunk_size read_bytes).2
   <= length in_file)%nat.
Proof.
  funelim (read_file_in_chunks_from in_file file_size chunk_size read_bytes).
  - clear Heqcall. pose proof (read_length in_file
      (if read_bytes >? file_size - chunk_size then file_size - read_bytes else chunk_size)) as Hr.
    rewrite e in Hr. exact Hr.
  - clear Heqcall. cbn [snd].
    match goal with
    | e : Py.read _ _ = _ |- _ => pose proof (read_shrinks _ _ _ _ _ e)
    end.
    etransitivity; [eassumption|]. lia.
Qed.

Lemma readinto_name_nonempty in_file tar_header in_file' :
  TarHeader.readinto in_file TarHeader.new = (tar_header, in_file') ->
  TarHeader.get tar_header TarHeader.name <> [] ->
  (length in_file' < length in_file)%nat.
Proof.
  unfold TarHeader.readinto.
  destruct (Py.read in_file (Z.of_nat TarHeader.sizeof)) as [data rest] eqn:Hread.
  intros [= <- <-] Hname. destruct data as [|c data].
  - exfalso. apply Hname. reflexivity.
  - eapply read_shrinks; eauto.
Qed.

Lemma extract_entry_shrinks umask dest_path in_file t in_file' t' :
  extract_entry umask dest_path in_file t = Continue in_file' t' ->
  (length in_file' < length in_file)%nat.
Proof.
  unfold extract_entry.
  destruct (TarHeader.readinto in_file TarHeader.new) as [tar_header in_file1] eqn:Hhdr.
  case_bool_decide as Hname; [discriminate|].
  pose proof (readinto_name_nonempty _ _ _ Hhdr Hname) as Hlt.
  destruct (Py.int8 _) as [e|file_size]; [discriminate|].
  assert (forall (r : exception + bytes * tree),
    (forall f x, r = inr (f, x) -> (length f <= length in_file1)%nat) ->
    match r with
    | inl e => Raise e
    | inr (in_file, t) =>
        let '(_, in_file) := Py.read in_file (padding_size file_size) in Continue in_file t
    end = Continue in_file' t' -> (length in_file' < length in_file)%nat) as Hfin.
  { intros [e|[f x]] Hr; [discriminate|]. specialize (Hr _ _ eq_refl).
    pose proof (read_length f (padding_size file_size)) as Hp.
    destruct (Py.read f (padding_size file_size)) as [? f']; simpl in *.
    intros [= <- <-]. lia. }
  apply Hfin. intros f x.
  repeat case_bool_decide.
  - destruct (fs.open_wb _ _ _); [discriminate|].
    pose proof (read_file_in_chunks_from_length in_file1 file_size default_chunk_size 0) as Hc.
    unfold read_file_in_chunks.
    destruct (read_file_in_chunks_from _ _ _ _) as [chunks f']; simpl in *.
    intros [= <- <-]. exact Hc.
  - destruct (fs.makedirs _ _); intros [= <- <-]; lia.
  - intros [= <- <-]; lia.
Qed.

(** The loop of [extract]. *)
Equations? extract_loop (umask : Z) (dest_path : bytes) (in_file : bytes) (t : tree)
  : exception + tree by wf (length in_file) lt :=
  extract_loop umask dest_path in_file t
    with inspect (extract_entry umask dest_path in_file t) := {
    | exist _ (Break t') _ := inr t'
    | exist _ (Raise e) _ := inl e
    | exist _ (Continue in_file' t') _ := extract_loop umask dest_path in_file' t' }.
Proof. eapply extract_entry_shrinks; eauto. Qed.

(** [extract]: the result flag and the tree afterwards. *)
Definition extract (umask : Z) (archive : archive_file) (dest_path : bytes) (t : tree)
  : exception + (bool * tree) :=
  t <- (if negb (fs.exists_ t dest_path) then fs.makedirs t dest_path else inr t) ;;
  in_file <- (match archive with
              | Some content => inr content
              | None => inl OSError
              end) ;;
  t <- extract_loop umask dest_path in_file t ;;
  inr (true, t).

(** A line printed by [list_content]: the values formatted into it. The
    time stamp stays the number of seconds; [line_linkname] is the
    stripped link name, printed after an arrow when it is not empty. *)
Record line := {
  line_permissions : bytes;
  line_uid : Z;
  line_gid : Z;
  line_size : Z;
  line_mtime : Z;
  line_name : bytes;
  line_linkname : bytes;
}.

(** One turn of the loop of [list_content]; the state is the output. The
    name is printed as the bytes it is; the source decodes it, which does
    not fail on an ASCII name. *)
Definition list_entry (in_file : bytes) (out : list line) : turn (list line) :=
  let tar_header := TarHeader.new in
  let '(tar_header, in_file) := TarHeader.readinto in_file tar_header in
  let name := TarHeader.get tar_header TarHeader.name in
  if bool_decide (name = []) then Break out
  else
    let printed :=
      file_size <- Py.int8 (TarHeader.get tar_header TarHeader.size) ;;
      permissions <- permission_bits (TarHeader.get tar_header TarHeader.mode)
                       (TarHeader.get tar_header TarHeader.typeflag) ;;
      uid <- Py.int8 (TarHeader.get tar_header TarHeader.uid) ;;
      gid <- Py.int8 (TarHeader.get tar_header TarHeader.gid) ;;
      mtime <- Py.int8 (TarHeader.get tar_header TarHeader.mtime) ;;
      inr {| line_permissions := permissions;
             line_uid := uid;
             line_gid := gid;
             line_size := file_size;
             line_mtime := mtime;
             line_name := name;
             line_linkname := Py.strip (TarHeader.get tar_header TarHeader.linkname) |} in
    match printed with
    | inl e => Raise e
    | inr l =>
        let '(_, in_file) := Py.read in_file (line_size l) in
        let '(_, in_file) := Py.read in_file (padding_size (line_size l)) in
        Continue in_file (out ++ [l])
    end.

Lemma list_entry_shrinks in_file out in_file' out' :
  list_entry in_file out = Continue in_file' out' ->
  (length in_file' < length in_file)%nat.
Proof.
  unfold list_entry.
  destruct (TarHeader.readinto in_file TarHeader.new) as [tar_header in_file1] eqn:Hhdr.
  case_bool_decide as Hname; [discriminate|].
  pose proof (readinto_name_nonempty _ _ _ Hhdr Hname) as Hlt.
  match goal with |- context [match ?p with inl _ => _ | inr _ => _ end] => destruct p as [e|l] end;
    [discriminate|].
  pose proof (read_length in_file1 (line_size l)) as H1.
  destruct (Py.read in_file1 (line_size l)) as [? f1]; simpl in *.
  pose proof (read_length f1 (padding_size (line_size l))) as H2.
  destruct (Py.read f1 (padding_size (line_size l))) as [? f2]; simpl in *.
  intros [= <- <-]. lia.
Qed.

(** The loop of [list_content]. *)
Equations? list_loop (in_file : bytes) (out : list line)
  : exception + list line by wf (length in_file) lt :=
  list_loop in_file out with inspect (list_entry in_file out) := {
    | exist _ (Break out') _ := inr out'
    | exist _ (Raise e) _ := inl e
    | exist _ (Continue in_file' out') _ := list_loop in_file' out' }.
Proof. eapply list_entry_shrinks; eauto. Qed.

(** [list_content]: the result flag and the lines printed. *)
Definition list_content (archive : archive_file) : exception + (bool * list line) :=
  in_file <- (match archive with
              | Some content => inr content
              | None => inl OSError
              end) ;;
  out <- list_loop in_file [] ;;
  inr (true, out).

(** ** The command line, [main] *)

(** The parsed arguments, [args]. *)
Record arguments := {
  args_add : bool;
  args_create : bool;
  args_list : bool;
  args_extract : bool;
  args_file : option bytes;
  args_verbose : bool;
  args_file_or_dir : option bytes;
}.

(** How a run ends: the exit status, the archive named by [args.file], the
    tree extracted to, and the lines printed by [list_content]. *)
Record outcome := {
  exit_status : Z;
  archive_after : archive_file;
  tree_after : tree;
  printed : list line;
}.

(** The truth value of an optional argument: absent and empty are false. *)
Definition given (a : option bytes) : bool :=
  match a with
  | Some (_ :: _) => true
  | _ => false
  end.

(** [main], after [parser.parse_args()]. [archive] is the state of the
    file [args.file] names, so [os.path.isfile(args.file)] holds when it is
    there. Leaving [main] by [exit] gives status 1, by its end status 0. *)
Definition main (w : OS) (umask : Z) (args : arguments)
    (archive : archive_file) (t : tree) : exception + outcome :=
  let exit_1 := inr {| exit_status := 1; archive_after := archive;
                       tree_after := t; printed := [] |} in
  let any_action := args_add args || args_create args || args_list args || args_extract args in
  if negb any_action
     || (any_action && negb (given (args_file args)))
     || ((args_add args || args_create args) && negb (given (args_file_or_dir args)))
  then exit_1       (* parser.print_help(); exit(1) *)
  else
    let file_or_dir :=
      if args_extract args && negb (given (args_file_or_dir args))
      then Some (str "./out") else args_file_or_dir args in
    if negb (bool_decide (is_Some archive)) then exit_1    (* exit('No such file: ...') *)
    else
      let finish (result : bool) (archive : archive_file) (t : tree) (out : list line) :=
        (* something went wrong *)
        inr {| exit_status := if result then 0 else 1; archive_after := archive;
               tree_after := t; printed := out |} in
      if args_create args then
        r <- create w archive (default [] file_or_dir) ;; finish r.1 r.2 t []
      else if args_add args then
        r <- add w archive (default [] file_or_dir) ;; finish r.1 r.2 t []
      else if args_extract args then
        r <- extract umask archive (default [] file_or_dir) t ;; finish r.1 archive r.2 []
      else if args_list args then
        r <- list_content archive ;; finish r.1 archive t r.2
      else finish true archive t [].

(** ** Notions used in the statements *)

(** The sizes of the chunks of a transfer of [total] bytes: full chunks,
    then what remains. *)
Definition chunk_sizes (total chunk_size : Z) : list Z :=
  replicate (Z.to_nat (total / chunk_size)) chunk_size
  ++ (if total mod chunk_size =? 0 then [] else [total mod chunk_size]).

(** The bytes of a field in the memory of a header. *)
Definition raw (h : bytes) (f : TarHeader.field) : bytes :=
  take (TarHeader.width f) (drop (TarHeader.offsetof f) h).

(** The octal digit characters. *)
Definition octal (c : byte) : Prop := 48 <= ord c <= 55.

(** The value of a string of octal digits read from [acc] on. *)
Definition value (ds : bytes) (acc : Z) : Z :=
  fold_left (fun a c => a * 8 + (ord c - 48)) ds acc.










(** Every path of [t] is still in [t'], a directory as a directory and a
    file as a file with the same permission bits. *)
Definition kept (t t' : tree) : Prop :=
  forall path,
    match t !! path with
    | Some Directory => t' !! path = Some Directory
    | Some (RegularFile perm _) => exists data, t' !! path = Some (RegularFile perm data)
    | None => True
    end.

(** ** Example systems *)

Definition example_stat (mode size : Z) : stat_result :=
  {| st_mode := mode; st_ino := 7; st_dev := 1; st_uid := 1000; st_gid := 1000;
     st_size := size; st_mtime := 1700000000 |}.

(** A user's directory: a regular file [123.txt] of 13 bytes, a
    directory [some_dir] as a tmpfs reports it (size 40), a symbolic link
    [link] to [123.txt], a file [big] of 8^12 bytes, and a directory [d]
    whose listing holds a dangling link [gone]. *)
Definition example_data : bytes :=
  str "123" ++ [x0d; x0a] ++ str "aaa" ++ [x0d; x0a] ++ str "zzz".

Definition example_os : OS :=
  {| lstat p :=
       if decide (p = str "123.txt") then Some (example_stat 0x81ED 13)
       else if decide (p = str "/srv/123.txt") then Some (example_stat 0x81ED 13)
       else if decide (p = str "some_dir") then Some (example_stat 0x41ED 40)
       else if decide (p = str "link") then Some (example_stat 0xA1FF 7)
       else if decide (p = str "big") then Some (example_stat 0x81A4 (8 ^ 12))
       else if decide (p = str "d") then Some (example_stat 0x41ED 4096)
       else if decide (p = str "d/gone") then Some (example_stat 0xA1FF 7)
       else None;
     realpath p :=
       if decide (p = str "link") then str "123.txt"
       else if decide (p = str "d/gone") then str "d/nowhere"
       else p;
     open_rb p :=
       if decide (p = str "123.txt") then inr example_data
       else if decide (p = str "/srv/123.txt") then inr example_data
       else if decide (p = str "link") then inr example_data
       else inl OSError;
     walk p := if decide (p = str "d") then [(str "d", [], [str "gone"])] else [];
     getuser := str "user";
     has_pwd := true;
     getpwnam n := Some (1000, 1000);
     getgrgid g := Some (str "users") |}.

(** The archive of the example file added under an absolute name, and a
    tree holding the directories [/] and [/srv]. *)
Definition example_absolute_archive : bytes :=
  match add example_os (Some []) (str "/srv/123.txt") with
  | inr (_, Some archive) => archive
  | _ => []
  end.

Definition example_tree : tree :=
  <[str "/srv" := Directory]> (<[str "/" := Directory]> ∅).




(** A tree in which the file of the example archive is already there, with
    other content and other permission bits. *)
Definition example_full_tree : tree :=
  <[str "/srv/123.txt" := RegularFile 0x180 (str "old")]> example_tree.

(** ** The cases of the test suite *)

Example format_o_13 : Py.format_o 11 13 = str "00000000015".
Proof. reflexivity. Qed.
Example format_o_neg : Py.format_o 7 (-10) = str "-000012".
Proof. reflexivity. Qed.
Example int8_13 : Py.int8 (str "00000000015") = inr 13.
Proof. reflexivity. Qed.
Example int8_misc : map Py.int8 [str " -0o_1_7 "; str "1__7"; str "0o"; str ""; str "18"; str "+7"; str "7_"]
  = [inr (-15); inl ValueError; inl ValueError; inl ValueError; inl ValueError; inr 7; inl ValueError].
Proof. reflexivity. Qed.

Example sizeof_TarHeader : TarHeader.sizeof = 512%nat.
Proof. reflexivity. Qed.
Example offsets : map TarHeader.offsetof [TarHeader.name; TarHeader.size; TarHeader.chksum; TarHeader.typeflag; TarHeader.pad]
   = [0; 124; 148; 156; 500]%nat.
Proof. reflexivity. Qed.
Example set_get : (h <- TarHeader.set TarHeader.new TarHeader.chksum (str "        ") ;;
                   h <- TarHeader.set h TarHeader.chksum (str "000400") ;;
                   inr (take 8 (drop 148 h))) = inr (str "000400" ++ [x00; " "%byte]).
Proof. reflexivity. Qed.

Example permission_bits_tests :
  [ permission_bits (str "0") TAR_TYPE_REGULAR_FILE;
    permission_bits (str "0") TAR_TYPE_REGULAR_FILE_ALIAS;
    permission_bits (str "777") TAR_TYPE_DIR;
    permission_bits (str "111") TAR_TYPE_DIR;
    permission_bits (str "007") TAR_TYPE_SYMLINK;
    permission_bits (str "555") TAR_TYPE_HARDLINK ]
  = map inr [ str "----------"; str "----------"; str "drwxrwxrwx";
              str "d--x--x--x"; str "l------rwx"; str "hr-xr-xr-x" ].
Proof. vm_compute. reflexivity. Qed.
Example chunks_ex : (read_file_in_chunks (str "0123456789ab") 10 4).1 = [str "0123"; str "4567"; str "89"].
Proof. reflexivity. Qed.
Example split_ex : map os.path_split [str "a/b"; str "/a"; str "a"; str "a//"; str "//"; str ""; str "a/b/c.txt"]
  = [(str "a", str "b"); (str "/", str "a"); (str "", str "a"); (str "a", str ""); (str "//", str ""); (str "", str ""); (str "a/b", str "c.txt")].
Proof. reflexivity. Qed.

(** * Properties *)

(** ** The checksum *)

Lemma ord_bounds c : 0 <= ord c < 256.
Proof. unfold ord. pose proof (Byte.to_N_bounded c). lia. Qed.

Lemma sum_foldr xs a : fold_left Z.add xs a = a + foldr Z.add 0 xs.
Proof.
  revert a. induction xs as [|x xs IH]; intros a; simpl; [lia|].
  rewrite IH. lia.
Qed.

Lemma BytesIO_roundtrip data :
  (BytesIO.read (BytesIO.seek (BytesIO.write BytesIO.new data) 0)).1 = data.
Proof.
  unfold BytesIO.read, BytesIO.seek, BytesIO.write. simpl.
  rewrite drop_nil, app_nil_r. reflexivity.
Qed.

Lemma get_header_checksum_sum header :
  get_header_checksum header = foldr (fun c acc => ord c + acc) 0 header.
Proof.
  unfold get_header_checksum.
  pose proof (BytesIO_roundtrip header) as Hrt.
  destruct (BytesIO.read _) as [data s]; simpl in Hrt; subst data.
  unfold Py.sum. rewrite sum_foldr, Z.add_0_l.
  induction header as [|c header IH]; simpl; [reflexivity|]. by rewrite IH.
Qed.

(** C3. The checksum of a header is the sum of the values of its bytes,
    each between 0 and 255, over the whole 512-byte record; it is 0 for a
    new (all-zero) header and 256 for a header whose checksum field holds
    eight spaces and whose other bytes are zero. *)
Theorem checksum_is_byte_sum :
  (forall header : bytes,
      get_header_checksum header = foldr (fun c acc => ord c + acc) 0 header
      /\ Forall (fun c => 0 <= ord c < 256) header)
  /\ length TarHeader.new = 512%nat
  /\ get_header_checksum TarHeader.new = 0
  /\ exists tar_header,
      TarHeader.set TarHeader.new TarHeader.chksum (replicate 8 " "%byte) = inr tar_header
      /\ length tar_header = 512%nat
      /\ TarHeader.get tar_header TarHeader.chksum = replicate 8 " "%byte
      /\ take 148 tar_header = replicate 148 x00
      /\ drop 156 tar_header = replicate 356 x00
      /\ get_header_checksum tar_header = 256.
Proof.
  split; [|split; [|split]].
  - intros header. split; [apply get_header_checksum_sum|].
    apply Forall_forall. intros c _. apply ord_bounds.
  - reflexivity.
  - reflexivity.
  - eexists. repeat split; reflexivity.
Qed.

(** ** The chunked reader *)

Lemma chunk_sizes_0 chunk_size : 0 < chunk_size -> chunk_sizes 0 chunk_size = [].
Proof.
  intros H. unfold chunk_sizes. rewrite Z.div_0_l, Z.mod_0_l by lia. reflexivity.
Qed.

Lemma chunk_sizes_full total chunk_size :
  0 < chunk_size <= total ->
  chunk_sizes total chunk_size = chunk_size :: chunk_sizes (total - chunk_size) chunk_size.
Proof.
  intros H. unfold chunk_sizes.
  assert (total / chunk_size = (total - chunk_size) / chunk_size + 1) as ->.
  { rewrite <- Z.div_add by lia. f_equal. lia. }
  assert (total mod chunk_size = (total - chunk_size) mod chunk_size) as ->.
  { rewrite <- (Z_mod_plus_full (total - chunk_size) 1 chunk_size). f_equal. lia. }
  rewrite Z2Nat.inj_add by (try apply Z.div_pos; lia).
  replace (Z.to_nat 1) with 1%nat by reflexivity.
  rewrite Nat.add_1_r. reflexivity.
Qed.

Lemma chunk_sizes_last total chunk_size :
  0 < total < chunk_size -> chunk_sizes total chunk_size = [total].
Proof.
  intros H. unfold chunk_sizes.
  rewrite Z.div_small, Z.mod_small by lia.
  destruct (total =? 0) eqn:E; [lia|]. reflexivity.
Qed.

Lemma read_file_in_chunks_from_spec in_file file_size chunk_size read_bytes :
  0 < chunk_size ->
  0 <= read_bytes <= file_size ->
  file_size - read_bytes <= Z.of_nat (length in_file) ->
  let r := read_file_in_chunks_from in_file file_size chunk_size read_bytes in
  let n := Z.to_nat (file_size - read_bytes) in
  concat r.1 = take n in_file
  /\ r.2 = drop n in_file
  /\ map (fun chunk => Z.of_nat (length chunk)) r.1
     = chunk_sizes (file_size - read_bytes) chunk_size.
Proof.
  intros Hcs. cbv zeta.
  funelim (read_file_in_chunks_from in_file file_size chunk_size read_bytes);
    intros Hrb Hlen; clear Heqcall;
    match goal with e : Py.read _ _ = _ |- _ => generalize e end;
    unfold Py.read;
    set (n := if read_bytes >? file_size - chunk_size
              then file_size - read_bytes else chunk_size);
    assert (n = Z.min chunk_size (file_size - read_bytes)) as Hn
      by (subst n; destruct (Z.gtb_spec read_bytes (file_size - chunk_size)); lia);
    clearbody n;
    destruct (Z.ltb_spec n 0) as [|_]; try lia; intros [= Htake Hdrop].
  - (* the read came back empty: nothing was left to transfer *)
    assert (file_size - read_bytes = 0) as Hz.
    { apply (f_equal length) in Htake. rewrite length_take in Htake. simpl in Htake. lia. }
    rewrite Hz. simpl. rewrite chunk_sizes_0 by lia.
    replace (Z.to_nat n) with 0%nat in Hdrop by lia. simpl in Hdrop. by subst.
  - assert (Z.of_nat (length (c :: chunk)) = n) as Hc.
    { rewrite <- Htake, length_take. lia. }
    assert (0 < n) by (simpl in Hc; lia).
    match goal with
    | IH : 0 < _ -> _ |- _ =>
        destruct IH as (IH1 & IH2 & IH3);
          [ lia | lia | rewrite <- Hdrop, length_drop; lia | ]
    end.
    cbn [fst snd concat map]. rewrite IH1, IH2, IH3, Hc, <- Htake, <- Hdrop.
    replace (file_size - (read_bytes + n)) with (file_size - read_bytes - n) by lia.
    split; [|split].
    + simpl concat. rewrite take_take_drop. f_equal. lia.
    + rewrite drop_drop. f_equal. lia.
    + destruct (Z.le_gt_cases chunk_size (file_size - read_bytes)).
      * replace n with chunk_size by lia. by rewrite <- chunk_sizes_full by lia.
      * replace n with (file_size - read_bytes) by lia.
        rewrite Z.sub_diag, chunk_sizes_0, chunk_sizes_last by lia. reflexivity.
Qed.

(** C7. Reading [file_size] bytes from a file holding at least that many,
    in chunks of [chunk_size]: the chunks put together are the first
    [file_size] bytes, the file is left exactly behind them, every chunk but
    the last has [chunk_size] bytes and the last has the remaining count. *)
Theorem read_file_in_chunks_exact (in_file : bytes) (file_size chunk_size : Z) :
  0 < chunk_size ->
  0 <= file_size <= Z.of_nat (length in_file) ->
  let r := read_file_in_chunks in_file file_size chunk_size in
  concat r.1 = take (Z.to_nat file_size) in_file
  /\ Z.of_nat (length (concat r.1)) = file_size
  /\ r.2 = drop (Z.to_nat file_size) in_file
  /\ Forall (fun chunk => 0 < Z.of_nat (length chunk) <= chunk_size) r.1
  /\ map (fun chunk => Z.of_nat (length chunk)) r.1 = chunk_sizes file_size chunk_size.
Proof.
  intros Hcs Hfs. cbv zeta. unfold read_file_in_chunks.
  destruct (read_file_in_chunks_from_spec in_file file_size chunk_size 0)
    as (H1 & H2 & H3); [lia..|].
  rewrite Z.sub_0_r in *.
  split; [exact H1|]. split; [rewrite H1, length_take; lia|]. split; [exact H2|].
  split; [|exact H3].
  apply Forall_forall. intros chunk Hin.
  assert (In (Z.of_nat (length chunk)) (chunk_sizes file_size chunk_size)) as Hsz.
  { rewrite <- H3. apply in_map_iff. exists chunk. split; [reflexivity|].
    by apply list_elem_of_In. }
  unfold chunk_sizes in Hsz. apply in_app_iff in Hsz as [Hsz|Hsz].
  - apply list_elem_of_In, elem_of_replicate in Hsz as [-> _]. lia.
  - pose proof (Z.mod_pos_bound file_size chunk_size Hcs).
    destruct (Z.eqb_spec (file_size mod chunk_size) 0); simpl in Hsz; [tauto|].
    destruct Hsz as [<-|[]]. lia.
Qed.

Lemma read_file_in_chunks_exact_witness :
  let r := read_file_in_chunks (str "0123456789ab") 10 4 in
  concat r.1 = str "0123456789"
  /\ Z.of_nat (length (concat r.1)) = 10
  /\ r.2 = str "ab"
  /\ Forall (fun chunk => 0 < Z.of_nat (length chunk) <= 4) r.1
  /\ map (fun chunk => Z.of_nat (length chunk)) r.1 = [4; 4; 2].
Proof.
  apply (read_file_in_chunks_exact (str "0123456789ab") 10 4); simpl; lia.
Defined.

(** ** Character fields *)

Lemma c_str_no_nul v : Forall (fun c => c <> x00) v -> ctypes.c_str v = v.
Proof.
  induction 1 as [|c v Hc _ IH]; simpl; [reflexivity|].
  destruct (Byte.eqb c x00) eqn:E; [by apply Byte.byte_dec_bl in E|]. by rewrite IH.
Qed.

Lemma c_str_app_nul d r :
  Forall (fun c => c <> x00) d -> ctypes.c_str (d ++ x00 :: r) = d.
Proof.
  induction 1 as [|c v Hc _ IH]; simpl; [reflexivity|].
  destruct (Byte.eqb c x00) eqn:E; [by apply Byte.byte_dec_bl in E|]. by rewrite IH.
Qed.

Lemma c_str_Forall v : Forall (fun c => c <> x00) (ctypes.c_str v).
Proof.
  induction v as [|c v IH]; simpl; [constructor|].
  destruct (Byte.eqb c x00) eqn:E; constructor; [|done].
  intros ->. discriminate.
Qed.


Lemma poke_length mem offset data :
  (offset + length data <= length mem)%nat ->
  length (ctypes.poke mem offset data) = length mem.
Proof.
  intros H. unfold ctypes.poke. rewrite !length_app, length_take, length_drop. lia.
Qed.

Lemma poke_lookup mem offset data i :
  (offset + length data <= length mem)%nat ->
  ctypes.poke mem offset data !! i =
    if decide (offset <= i < offset + length data)%nat then data !! (i - offset)%nat
    else mem !! i.
Proof.
  intros H. unfold ctypes.poke.
  destruct (decide (i < offset)%nat).
  - rewrite lookup_app_l by (rewrite length_take; lia).
    rewrite lookup_take_lt by lia. case_decide; [lia|done].
  - rewrite lookup_app_r by (rewrite length_take; lia).
    rewrite length_take, Nat.min_l by lia.
    destruct (decide (i < offset + length data)%nat).
    + rewrite lookup_app_l by lia. case_decide; [done|lia].
    + rewrite lookup_app_r by lia. rewrite lookup_drop.
      case_decide; [lia|]. f_equal. lia.
Qed.

Lemma poke_slice_same mem offset data :
  (offset + length data <= length mem)%nat ->
  take (length data) (drop offset (ctypes.poke mem offset data)) = data.
Proof.
  intros H. unfold ctypes.poke.
  rewrite drop_app_length' by (rewrite length_take; lia).
  by rewrite take_app_length.
Qed.

Lemma poke_slice_other mem offset data offset' n :
  (offset + length data <= length mem)%nat ->
  (offset' + n <= offset \/ offset + length data <= offset')%nat ->
  take n (drop offset' (ctypes.poke mem offset data)) = take n (drop offset' mem).
Proof.
  intros H Hd. apply list_eq. intros i.
  destruct (decide (i < n)%nat).
  - rewrite !lookup_take_lt, !lookup_drop, poke_lookup by lia.
    case_decide; [lia|done].
  - rewrite !lookup_take_ge by lia. done.
Qed.

(** ** Header fields *)

Lemma field_in_header f : (TarHeader.offsetof f + TarHeader.width f <= 512)%nat.
Proof. destruct f; vm_compute; lia. Qed.

Lemma fields_disjoint f g :
  f <> g ->
  (TarHeader.offsetof f + TarHeader.width f <= TarHeader.offsetof g
   \/ TarHeader.offsetof g + TarHeader.width g <= TarHeader.offsetof f)%nat.
Proof. destruct f, g; intros H; try congruence; vm_compute; lia. Qed.

Lemma get_raw h f :
  TarHeader.get h f =
    match TarHeader.typeof f with
    | ctypes.c_char => raw h f
    | ctypes.c_char_array _ => ctypes.c_str (raw h f)
    end.
Proof.
  unfold TarHeader.get, ctypes.getfield, raw, TarHeader.width.
  destruct (TarHeader.typeof f); reflexivity.
Qed.

(** What an assignment writes into the field. *)
Lemma set_inr h f v h' :
  TarHeader.set h f v = inr h' ->
  exists data, h' = ctypes.poke h (TarHeader.offsetof f) data
    /\ (length data <= TarHeader.width f)%nat
    /\ match TarHeader.typeof f with
       | ctypes.c_char => exists c, v = [c] /\ data = [c]
       | ctypes.c_char_array n =>
           (length (ctypes.c_str v) <= n)%nat
           /\ data = if (length (ctypes.c_str v) <? n)%nat
                     then ctypes.c_str v ++ [x00] else ctypes.c_str v
       end.
Proof.
  unfold TarHeader.set, ctypes.setfield, TarHeader.width.
  destruct (TarHeader.typeof f) as [|n]; simpl.
  - destruct v as [|c [|]]; intros [= <-]. exists [c]. simpl. eauto.
  - destruct (Nat.ltb_spec n (length (ctypes.c_str v))); intros [= <-].
    eexists. split; [reflexivity|].
    destruct (Nat.ltb_spec (length (ctypes.c_str v)) n);
      rewrite ?length_app; simpl; repeat split; lia.
Qed.

Lemma set_length h f v h' :
  length h = 512%nat -> TarHeader.set h f v = inr h' -> length h' = 512%nat.
Proof.
  intros Hh (data & -> & Hd & _)%set_inr.
  rewrite poke_length; [done|]. pose proof (field_in_header f). lia.
Qed.

Lemma raw_set_other h f v h' g :
  length h = 512%nat -> TarHeader.set h f v = inr h' -> g <> f -> raw h' g = raw h g.
Proof.
  intros Hh (data & -> & Hd & _)%set_inr Hne. unfold raw.
  pose proof (field_in_header f). apply poke_slice_other; [lia|].
  destruct (fields_disjoint g f Hne); lia.
Qed.

Lemma get_set_other h f v h' g :
  length h = 512%nat -> TarHeader.set h f v = inr h' -> g <> f ->
  TarHeader.get h' g = TarHeader.get h g.
Proof. intros. rewrite !get_raw. by erewrite raw_set_other. Qed.

Lemma get_set_same h f v h' :
  length h = 512%nat -> TarHeader.set h f v = inr h' ->
  TarHeader.get h' f =
    match TarHeader.typeof f with
    | ctypes.c_char => v
    | ctypes.c_char_array _ => ctypes.c_str v
    end.
Proof.
  intros Hh (data & -> & Hd & Hv)%set_inr. rewrite get_raw. unfold raw.
  pose proof (field_in_header f) as Hf. unfold TarHeader.width in *.
  destruct (TarHeader.typeof f) as [|n]; simpl in *.
  - destruct Hv as (c & -> & ->).
    apply (poke_slice_same h (TarHeader.offsetof f) [c]). simpl in *. lia.
  - destruct Hv as [Hn ->]. unfold ctypes.poke.
    rewrite drop_app_length' by (rewrite length_take; lia).
    destruct (Nat.ltb_spec (length (ctypes.c_str v)) n).
    + rewrite <- app_assoc. simpl.
      rewrite take_app_ge by lia.
      destruct (n - length (ctypes.c_str v))%nat eqn:E; [lia|]. simpl.
      apply c_str_app_nul, c_str_Forall.
    + rewrite take_app_length' by lia. apply c_str_no_nul, c_str_Forall.
Qed.


Lemma set_overflow h f v :
  (TarHeader.width f < length (ctypes.c_str v))%nat ->
  TarHeader.typeof f <> ctypes.c_char ->
  TarHeader.set h f v = inl ValueError.
Proof.
  unfold TarHeader.set, ctypes.setfield, TarHeader.width.
  destruct (TarHeader.typeof f) as [|n]; [done|]. simpl. intros H _.
  destruct (Nat.ltb_spec n (length (ctypes.c_str v))); [done|lia].
Qed.

(** ** Octal text *)

Lemma chr_octal d : 0 <= d < 8 -> octal (chr (48 + d)) /\ ord (chr (48 + d)) = 48 + d.
Proof.
  intros H. unfold octal.
  assert (d = 0 \/ d = 1 \/ d = 2 \/ d = 3 \/ d = 4 \/ d = 5 \/ d = 6 \/ d = 7) as Hd by lia.
  destruct Hd as [->|[->|[->|[->|[->|[->|[->| ->]]]]]]]; vm_compute; intuition congruence.
Qed.

Lemma octal_neq c x : octal c -> ~ octal x -> Byte.eqb c x = false.
Proof.
  intros Hc Hx. destruct (Byte.eqb c x) eqn:E; [|reflexivity].
  apply Byte.byte_dec_bl in E. by subst.
Qed.

Lemma octal_not_nul c : octal c -> c <> x00.
Proof. intros H ->. unfold octal in H. vm_compute in H. intuition congruence. Qed.

Lemma octal_digit_value c : octal c -> Py.digit_value c = Some (ord c - 48).
Proof.
  unfold octal, Py.digit_value. intros H.
  destruct (Z.leb_spec 48 (ord c)), (Z.leb_spec (ord c) 55); simpl; try lia. reflexivity.
Qed.

Lemma octal_not_space c : octal c -> Py.isspace c = false.
Proof.
  unfold octal, Py.isspace. intros H.
  destruct (Z.leb_spec 9 (ord c)), (Z.leb_spec (ord c) 13), (Z.eqb_spec (ord c) 32);
    simpl; try lia; reflexivity.
Qed.

Lemma oct_digits_octal fuel n : Forall octal (Py.oct_digits fuel n).
Proof.
  revert n. induction fuel as [|fuel IH]; intros n; simpl; [constructor|].
  apply Forall_app. split; [destruct (n <? 8); [constructor|apply IH]|].
  apply Forall_cons. split; [|constructor].
  apply (chr_octal (n mod 8)), Z.mod_pos_bound. lia.
Qed.

Lemma oct_digits_nonempty fuel n : Py.oct_digits (S fuel) n <> [].
Proof. simpl. intros H. by apply app_eq_nil in H as [_ ?]. Qed.

Lemma oct_digits_length fuel n (k : nat) :
  0 <= n < 8 ^ Z.of_nat k -> (1 <= k)%nat -> (length (Py.oct_digits fuel n) <= k)%nat.
Proof.
  revert n k. induction fuel as [|fuel IH]; intros n k Hn Hk; simpl; [lia|].
  rewrite length_app. simpl. destruct (Z.ltb_spec n 8); simpl; [lia|].
  destruct k as [|[|k]]; [lia| |].
  - change (8 ^ Z.of_nat 1) with 8 in Hn. lia.
  - specialize (IH (n / 8) (S k)).
    assert (length (Py.oct_digits fuel (n / 8)) <= S k)%nat; [|lia].
    apply IH; [|lia]. split; [apply Z.div_pos; lia|].
    apply Z.div_lt_upper_bound; [lia|].
    replace (Z.of_nat (S (S k))) with (Z.succ (Z.of_nat (S k))) in Hn by lia.
    rewrite Z.pow_succ_r in Hn by lia. lia.
Qed.

Lemma oct_digits_value fuel n :
  0 <= n < 8 ^ Z.of_nat fuel -> value (Py.oct_digits fuel n) 0 = n.
Proof.
  revert n. induction fuel as [|fuel IH]; intros n Hn.
  - change (8 ^ Z.of_nat 0) with 1 in Hn. assert (n = 0) as -> by lia. reflexivity.
  - simpl. unfold value. rewrite fold_left_app. simpl.
    destruct (chr_octal (n mod 8)) as [_ ->]; [apply Z.mod_pos_bound; lia|].
    destruct (Z.ltb_spec n 8); simpl.
    + rewrite Z.mod_small by lia. lia.
    + fold (value (Py.oct_digits fuel (n / 8)) 0). rewrite IH.
      * pose proof (Z.div_mod n 8). lia.
      * split; [apply Z.div_pos; lia|]. apply Z.div_lt_upper_bound; [lia|].
        replace (Z.of_nat (S fuel)) with (Z.succ (Z.of_nat fuel)) in Hn by lia.
        rewrite Z.pow_succ_r in Hn by lia. lia.
Qed.

Lemma oct_fuel n : 0 <= n -> n < 8 ^ Z.of_nat (S (Z.to_nat (Z.log2 n))).
Proof.
  intros Hn. pose proof (Z.log2_nonneg n).
  replace (Z.of_nat (S (Z.to_nat (Z.log2 n)))) with (Z.succ (Z.log2 n)) by lia.
  destruct (Z.eq_dec n 0) as [->|]; [reflexivity|].
  pose proof (Z.log2_spec n ltac:(lia)) as [_ Hs].
  eapply Z.lt_le_trans; [exact Hs|].
  apply Z.pow_le_mono_l. lia.
Qed.

Lemma oct_value n : 0 <= n -> value (Py.oct n) 0 = n.
Proof. intros H. apply oct_digits_value. split; [done|by apply oct_fuel]. Qed.

Lemma oct_length n (k : nat) :
  0 <= n < 8 ^ Z.of_nat k -> (1 <= k)%nat -> (1 <= length (Py.oct n) <= k)%nat.
Proof.
  intros Hn Hk. split; [|by apply oct_digits_length].
  unfold Py.oct. simpl. rewrite length_app. simpl. lia.
Qed.

Lemma format_o_nonneg width n :
  0 <= n ->
  Py.format_o width n
  = replicate (width - length (Py.oct n)) "0"%byte ++ Py.oct n.
Proof.
  intros H. unfold Py.format_o.
  destruct (Z.ltb_spec n 0); [lia|]. simpl. by rewrite Nat.sub_0_r, Z.abs_eq.
Qed.

Lemma format_o_octal width n : 0 <= n -> Forall octal (Py.format_o width n).
Proof.
  intros H. rewrite format_o_nonneg by done. apply Forall_app. split.
  - apply Forall_replicate. vm_compute. intuition congruence.
  - apply oct_digits_octal.
Qed.

Lemma format_o_length width n (k : nat) :
  0 <= n < 8 ^ Z.of_nat k -> (1 <= k <= width)%nat ->
  length (Py.format_o width n) = width.
Proof.
  intros Hn Hk. rewrite format_o_nonneg by lia.
  pose proof (oct_length n k Hn ltac:(lia)).
  rewrite length_app, length_replicate. lia.
Qed.

Lemma format_o_value width n : 0 <= n -> value (Py.format_o width n) 0 = n.
Proof.
  intros H. rewrite format_o_nonneg by done. unfold value.
  rewrite fold_left_app.
  assert (fold_left (fun a c => a * 8 + (ord c - 48))
            (replicate (width - length (Py.oct n)) "0"%byte) 0 = 0) as ->.
  { induction (width - length (Py.oct n))%nat; simpl; [reflexivity|assumption]. }
  by apply oct_value.
Qed.

Lemma format_o_nonempty width n : Py.format_o width n <> [].
Proof.
  unfold Py.format_o. intros H.
  apply app_eq_nil in H as [_ H]. apply app_eq_nil in H as [_ H].
  by apply oct_digits_nonempty in H.
Qed.

Lemma int_digits_octal ds prev acc :
  Forall octal ds -> ds <> [] ->
  Py.int_digits ds prev acc = Some (value ds acc, []).
Proof.
  intros Hds. revert prev acc. induction Hds as [|c ds Hc Hds IH]; intros prev acc Hne; [done|].
  simpl. rewrite octal_neq by (done || (vm_compute; intuition congruence)).
  rewrite octal_digit_value by done.
  destruct ds as [|c' ds]; [reflexivity|].
  by rewrite IH.
Qed.

(** [int(text, 8)] reads a string of octal digits as its value. *)
Lemma int8_octal ds : Forall octal ds -> ds <> [] -> Py.int8 ds = inr (value ds 0).
Proof.
  intros Hds Hne. unfold Py.int8.
  destruct ds as [|c0 ds]; [done|]. apply Forall_cons in Hds as Hc0. destruct Hc0 as [Hc0 Hds'].
  assert (Py.lstrip (c0 :: ds) = c0 :: ds) as -> by (simpl; by rewrite octal_not_space).
  assert (Py.int_sign (c0 :: ds) = (false, c0 :: ds)) as ->.
  { unfold Py.int_sign. by rewrite !octal_neq by (done || (vm_compute; intuition congruence)). }
  assert (Py.int_prefix (c0 :: ds) = c0 :: ds) as ->.
  { unfold Py.int_prefix. destruct ds as [|c1 ds]; [done|].
    apply Forall_cons in Hds' as [Hc1 _].
    rewrite (octal_neq c1 "o"), (octal_neq c1 "O") by (done || (vm_compute; intuition congruence)).
    by rewrite andb_false_r. }
  rewrite octal_neq by (done || (vm_compute; intuition congruence)).
  rewrite int_digits_octal by done. reflexivity.
Qed.

Lemma int8_format_o width n : 0 <= n -> Py.int8 (Py.format_o width n) = inr n.
Proof.
  intros H. rewrite int8_octal.
  - by rewrite format_o_value.
  - by apply format_o_octal.
  - apply format_o_nonempty.
Qed.

Lemma format_o_no_nul width n : Forall (fun c => c <> x00) (Py.format_o width n).
Proof.
  unfold Py.format_o. apply Forall_app; split; [|apply Forall_app; split].
  - destruct (n <? 0); repeat constructor. discriminate.
  - apply Forall_replicate. discriminate.
  - eapply Forall_impl; [apply oct_digits_octal|]. intros c. apply octal_not_nul.
Qed.

Lemma c_str_format_o width n : ctypes.c_str (Py.format_o width n) = Py.format_o width n.
Proof. apply c_str_no_nul, format_o_no_nul. Qed.

Lemma format_o_length_le width n (k : nat) :
  0 <= n < 8 ^ Z.of_nat k -> (1 <= k)%nat ->
  (length (Py.format_o width n) <= Nat.max width k)%nat.
Proof.
  intros Hn Hk. rewrite format_o_nonneg by lia.
  pose proof (oct_length n k Hn Hk).
  rewrite length_app, length_replicate. lia.
Qed.

Lemma set_error h f v e :
  TarHeader.set h f v = inl e -> f <> TarHeader.typeflag -> e = ValueError.
Proof.
  unfold TarHeader.set, ctypes.setfield. intros H Hf.
  destruct (TarHeader.typeof f) as [|n] eqn:T.
  - destruct f; try done; vm_compute in T; discriminate.
  - destruct (_ <? _)%nat; congruence.
Qed.

Lemma get_header_checksum_bounds h :
  0 <= get_header_checksum h <= 255 * Z.of_nat (length h).
Proof.
  rewrite get_header_checksum_sum.
  induction h as [|c h IH]; simpl length; simpl foldr; [lia|].
  pose proof (ord_bounds c). lia.
Qed.

(** Assigning a field that raises makes the rest of the header raise. *)
Ltac set_or_raise :=
  match goal with
  | |- bind (TarHeader.set ?h ?f ?v) _ = inl ValueError =>
      let e := fresh "e" in
      let E := fresh "E" in
      destruct (TarHeader.set h f v) as [e|?] eqn:E; cbn [bind];
      [ apply set_error in E; [by subst e|discriminate] | clear E ]
  end.

Ltac overflow_or_set :=
  match goal with
  | |- bind (TarHeader.set ?h ?f ?v) _ = inl ValueError =>
      let Hfit := fresh "Hfit" in
      destruct (le_lt_dec (length v) (TarHeader.width f)) as [Hfit|Hfit];
      [ set_or_raise
      | rewrite (set_overflow h f v) by (rewrite ?c_str_format_o; done); reflexivity ]
  end.

Lemma add_header_overflow filename file_stat typeflag linkname username group :
  (8 < length (Py.format_o 7 (st_uid file_stat))
   \/ 8 < length (Py.format_o 7 (st_gid file_stat))
   \/ 12 < length (Py.format_o 11 (if bool_decide (typeflag <> TAR_TYPE_DIR)
                                   then st_size file_stat else 0))
   \/ 12 < length (Py.format_o 0 (st_mtime file_stat)))%nat ->
  add_header filename file_stat typeflag linkname username group = inl ValueError.
Proof.
  intros Hover. unfold add_header.
  set_or_raise. set_or_raise.
  do 4 overflow_or_set.
  exfalso. vm_compute TarHeader.width in *. lia.
Qed.


Lemma get_set_array h f v h' :
  f <> TarHeader.typeflag -> length h = 512%nat -> TarHeader.set h f v = inr h' ->
  TarHeader.get h' f = ctypes.c_str v.
Proof.
  intros Hf Hh E. rewrite (get_set_same h f v h' Hh E).
  destruct (TarHeader.typeof f) eqn:T; [|done].
  destruct f; try done; vm_compute in T; discriminate.
Qed.

Lemma get_set_typeflag h v h' :
  length h = 512%nat -> TarHeader.set h TarHeader.typeflag v = inr h' ->
  TarHeader.get h' TarHeader.typeflag = v.
Proof. intros Hh E. by rewrite (get_set_same h _ v h' Hh E). Qed.


Lemma format_o_checksum_length h :
  length h = 512%nat -> length (Py.format_o 6 (get_header_checksum h)) = 6%nat.
Proof.
  intros Hh. pose proof (get_header_checksum_bounds h) as Hb. rewrite Hh in Hb.
  apply (format_o_length 6 _ 6); [|lia].
  change (8 ^ Z.of_nat 6) with 262144. lia.
Qed.

Lemma land_perm_bounds mode : 0 <= Z.land mode 0x1FF < 8 ^ Z.of_nat 3.
Proof.
  change 0x1FF with (Z.ones 9). rewrite Z.land_ones by lia.
  change (8 ^ Z.of_nat 3) with (2 ^ 9). apply Z.mod_pos_bound. lia.
Qed.

Ltac carry_fields h f v h' Hlen E :=
  repeat match goal with
    | Hg : TarHeader.get h ?g = _ |- _ =>
        let Hne := fresh in
        assert (g <> f) as Hne by discriminate;
        rewrite <- (get_set_other h f v h' g Hlen E Hne) in Hg;
        clear Hne
    end.



(** ** Field overflow *)

Lemma get_uid_and_gid_ok w username group :
  get_group_name w username = inr group -> exists ids, get_uid_and_gid w username = inr ids.
Proof.
  unfold get_group_name, get_uid_and_gid.
  destruct (has_pwd w); simpl; [|eauto].
  destruct (getpwnam w username) as [[]|]; [eauto|discriminate].
Qed.

(** C6. Building the header raises (the [ValueError] of the field
    assignment) whenever the octal text of the owner, the group, the size or
    the modification time is longer than its field; the mode, masked to
    nine bits, always fits. *)
Theorem add_raises_on_overflow (w : OS) (archive : archive_file)
    (filename : bytes) (file_stat : stat_result) (group typeflag linkname : bytes) :
  os.stat w filename = inr file_stat ->
  get_group_name w (getuser w) = inr group ->
  set_file_type w filename (st_mode file_stat) = inr (typeflag, linkname) ->
  (TarHeader.width TarHeader.uid < length (Py.format_o 7 (st_uid file_stat))
   \/ TarHeader.width TarHeader.gid < length (Py.format_o 7 (st_gid file_stat))
   \/ TarHeader.width TarHeader.size
      < length (Py.format_o 11 (if bool_decide (typeflag <> TAR_TYPE_DIR)
                                then st_size file_stat else 0))
   \/ TarHeader.width TarHeader.mtime < length (Py.format_o 0 (st_mtime file_stat)))%nat ->
  (length (Py.format_o 7 (Z.land (st_mode file_stat) 0x1FF)) <= TarHeader.width TarHeader.mode)%nat
  /\ add_header filename file_stat typeflag linkname (getuser w) group = inl ValueError
  /\ add w archive filename = inl ValueError.
Proof.
  intros Hstat Hgroup Htype Hover.
  assert (add_header filename file_stat typeflag linkname (getuser w) group = inl ValueError)
    as Hheader by (by apply add_header_overflow).
  split; [|split; [exact Hheader|]].
  - rewrite (format_o_length 7 _ 3); [vm_compute; lia|apply land_perm_bounds|lia].
  - unfold add, os.path_exists. rewrite Hstat, Hgroup. simpl.
    destruct (get_uid_and_gid_ok _ _ _ Hgroup) as [ids ->]. simpl.
    rewrite Htype. simpl. by rewrite Hheader.
Qed.

Lemma add_raises_on_overflow_witness :
  (length (Py.format_o 7 (Z.land 0x81A4 0x1FF)) <= 8)%nat
  /\ add_header (str "big") (example_stat 0x81A4 (8 ^ 12)) TAR_TYPE_REGULAR_FILE []
       (str "user") (str "users") = inl ValueError
  /\ add example_os None (str "big") = inl ValueError.
Proof.
  apply (add_raises_on_overflow example_os None (str "big") (example_stat 0x81A4 (8 ^ 12))
           (str "users") TAR_TYPE_REGULAR_FILE []); try reflexivity.
  right. right. left. vm_compute. lia.
Defined.

(** ** The result of [create] *)

Lemma add_to_keeps_true w st filename st' :
  st.1 = true -> add_to w st filename = inr st' -> st'.1 = true.
Proof.
  unfold add_to. intros Hst. destruct (add w st.2 filename) as [e|r]; simpl; [done|].
  intros [= <-]. simpl. by rewrite Hst.
Qed.

Lemma for_each_invariant {A S} (P : S -> Prop) (xs : list A) body (s s' : S) :
  (forall s x s', P s -> body s x = inr s' -> P s') ->
  P s -> for_each xs body s = inr s' -> P s'.
Proof.
  intros Hbody. revert s. induction xs as [|x xs IH]; simpl; intros s Hs.
  - by intros [= <-].
  - destruct (body s x) as [e|s1] eqn:E; simpl; [done|]. eauto.
Qed.

(** C10. Whenever the path given to [create] exists and [create] returns,
    it returns [True], whatever the calls of [add] returned: the flag
    starts as [True] and is only or-ed with their results. *)
Theorem create_returns_true (w : OS) (archive : archive_file) (file_or_dir : bytes)
    (r : bool * archive_file) :
  os.path_exists w file_or_dir = true ->
  create w archive file_or_dir = inr r ->
  r.1 = true.
Proof.
  unfold create. intros ->. simpl.
  destruct (os.path_isfile w file_or_dir).
  - by apply add_to_keeps_true.
  - apply (for_each_invariant (fun st => st.1 = true)); [|reflexivity].
    intros st [[dirname dirs] files] st' Hst.
    destruct (add_to w st dirname) as [e|st1] eqn:E; simpl; [done|].
    apply add_to_keeps_true in E; [|done].
    apply (for_each_invariant (fun st => st.1 = true)); [|done].
    intros s x s' Hs. by apply add_to_keeps_true.
Qed.

(** In the example, the listing of [d] holds a dangling link: its [add]
    returns [False], and [create] returns [True] all the same. *)
Lemma create_returns_true_witness :
  os.path_exists example_os (str "d") = true
  /\ (exists archive, add example_os archive (str "d/gone") = inr (false, archive))
  /\ exists r, create example_os None (str "d") = inr r /\ r.1 = true.
Proof.
  split; [reflexivity|]. split; [exists None; reflexivity|].
  destruct (create example_os None (str "d")) as [e|r] eqn:E; [by vm_compute in E|].
  exists r. split; [reflexivity|].
  apply (create_returns_true example_os None (str "d") r); [reflexivity|exact E].
Defined.

(** ** Symbolic links *)

Lemma os_stat_not_link w path st :
  os.stat w path = inr st -> stat.S_ISLNK (st_mode st) = false.
Proof.
  unfold os.stat. destruct (lstat w (realpath w path)) as [st'|]; [|done].
  destruct (stat.S_ISLNK (st_mode st')) eqn:E; [done|]. by intros [= <-].
Qed.

(** What [os.stat] reports is never a link, so no entry is ever given the
    type of a symbolic or hard link, nor a link name. *)
Lemma set_file_type_not_link w filename st :
  os.stat w filename = inr st ->
  is_hard_link w filename = inr false
  /\ exists typeflag,
      set_file_type w filename (st_mode st) = inr (typeflag, [])
      /\ typeflag <> TAR_TYPE_SYMLINK /\ typeflag <> TAR_TYPE_HARDLINK.
Proof.
  intros Hstat. pose proof (os_stat_not_link _ _ _ Hstat) as Hlnk.
  unfold is_hard_link, set_file_type. rewrite Hstat. cbn [bind]. rewrite !Hlnk. simpl.
  split; [reflexivity|].
  repeat match goal with
         | |- context [if ?b then _ else _] => destruct b
         end; eexists; (split; [reflexivity|done]).
Qed.

(** C5 (the code departs from the claim). In the example, [link] is a
    symbolic link to the regular file [123.txt]: [add] appends it as a
    regular file (type flag [0]) with an empty link name and the data of
    its target, not as a link. *)
Lemma add_symlink_as_regular_file :
  (exists st, lstat example_os (str "link") = Some st /\ stat.S_ISLNK (st_mode st) = true)
  /\ realpath example_os (str "link") = str "123.txt"
  /\ exists archive,
      add example_os (Some []) (str "link") = inr (true, Some archive)
      /\ TarHeader.get archive TarHeader.typeflag = TAR_TYPE_REGULAR_FILE
      /\ TarHeader.get archive TarHeader.linkname = []
      /\ take 13 (drop 512 archive) = example_data.
Proof.
  split; [eexists; split; reflexivity|]. split; [reflexivity|].
  destruct (add example_os (Some []) (str "link")) as [e|[b [archive|]]] eqn:E;
    try (by vm_compute in E).
  exists archive. vm_compute in E. injection E as <- <-. repeat split; reflexivity.
Qed.

(** ** Directories and padding *)

(** C4 (the code departs from the claim). In the example, [some_dir] is a
    directory whose reported size is 40: [add] writes a header with size
    field 0 and no data, but 472 padding bytes after the header. *)
Lemma add_directory_writes_padding :
  (exists st, os.stat example_os (str "some_dir") = inr st
              /\ stat.S_ISDIR (st_mode st) = true /\ st_size st = 40)
  /\ exists tar_header,
      add example_os (Some []) (str "some_dir")
      = inr (true, Some (tar_header ++ replicate 472 x00))
      /\ length tar_header = 512%nat
      /\ TarHeader.get tar_header TarHeader.typeflag = TAR_TYPE_DIR
      /\ Py.int8 (TarHeader.get tar_header TarHeader.size) = inr 0.
Proof.
  split; [eexists; repeat split; reflexivity|].
  destruct (add example_os (Some []) (str "some_dir")) as [e|[b [archive|]]] eqn:E;
    try (by vm_compute in E).
  exists (take 512 archive). vm_compute in E. injection E as <- <-. repeat split; reflexivity.
Qed.

(** C2 (the code departs from the claim). The 472 bytes written after the
    header of that directory are not a whole number of 512-byte blocks, for
    any data length; a regular file added behind it is no longer found by
    [list_content]. *)
Lemma add_directory_breaks_blocks :
  exists archive archive',
    add example_os (Some []) (str "some_dir") = inr (true, Some archive)
    /\ length (drop 512 archive) = 472%nat
    /\ (forall L : Z, Py.ceil_div512 L * 512 <> 472)
    /\ add example_os (Some archive) (str "123.txt") = inr (true, Some archive')
    /\ exists l, list_content (Some archive') = inr (true, [l])
                 /\ line_name l = str "some_dir".
Proof.
  destruct (add example_os (Some []) (str "some_dir")) as [e|[b [archive|]]] eqn:E;
    try (by vm_compute in E).
  destruct (add example_os (Some archive) (str "123.txt")) as [e|[b' [archive'|]]] eqn:E';
    try (by vm_compute in E; injection E as <- <-; vm_compute in E').
  exists archive, archive'.
  vm_compute in E. injection E as <- <-.
  vm_compute in E'. injection E' as <- <-.
  split; [reflexivity|]. split; [reflexivity|]. split; [unfold Py.ceil_div512; lia|].
  split; [reflexivity|]. eexists. split; [vm_compute; reflexivity|reflexivity].
Qed.

(** ** The end of a scan *)

(** The name read from the next header position is empty exactly when the
    first byte there is NUL, or when nothing is left to read. *)
Lemma readinto_name_empty in_file :
  TarHeader.get (TarHeader.readinto in_file TarHeader.new).1 TarHeader.name = []
  <-> default x00 (head in_file) = x00.
Proof.
  unfold TarHeader.readinto, Py.read. change (Z.of_nat TarHeader.sizeof <? 0) with false.
  cbv iota beta. cbn [fst].
  destruct in_file as [|c in_file]; [split; reflexivity|].
  change (Z.to_nat (Z.of_nat TarHeader.sizeof)) with 512%nat.
  change (take 512 (c :: in_file)) with (c :: take 511 in_file).
  unfold TarHeader.get, ctypes.getfield, ctypes.poke.
  change (TarHeader.offsetof TarHeader.name) with 0%nat.
  change (TarHeader.typeof TarHeader.name) with (ctypes.c_char_array 100).
  rewrite take_0, drop_0. cbn [app firstn ctypes.c_str head default]. unfold id.
  destruct (Byte.eqb c x00) eqn:E.
  - apply Byte.byte_dec_bl in E. done.
  - split; [done|]. intros ->. discriminate.
Qed.

Lemma list_entry_break in_file out :
  (exists out', list_entry in_file out = Break out') <-> default x00 (head in_file) = x00.
Proof.
  rewrite <- readinto_name_empty. unfold list_entry.
  destruct (TarHeader.readinto in_file TarHeader.new) as [tar_header in_file1]. cbn [fst].
  case_bool_decide as Hname; [split; eauto|].
  split; [|done]. intros [out' H]. exfalso.
  match type of H with
  | match ?p with inl _ => _ | inr _ => _ end = _ => destruct p as [e|l]
  end; [discriminate|].
  destruct (Py.read in_file1 (line_size l)) as [? f1].
  destruct (Py.read f1 (padding_size (line_size l))). discriminate.
Qed.

Lemma extract_entry_break umask dest_path in_file t :
  (exists t', extract_entry umask dest_path in_file t = Break t')
  <-> default x00 (head in_file) = x00.
Proof.
  rewrite <- readinto_name_empty. unfold extract_entry.
  destruct (TarHeader.readinto in_file TarHeader.new) as [tar_header in_file1]. cbn [fst].
  case_bool_decide as Hname; [split; eauto|].
  split; [|done]. intros [t' H]. exfalso.
  destruct (Py.int8 _); [discriminate|].
  cbv zeta in H.
  match type of H with
  | match ?p with inl _ => _ | inr _ => _ end = _ => destruct p as [e|[f x]]
  end; [discriminate|].
  destruct (Py.read f _). discriminate.
Qed.

(** C8, as the claim states it, fails: the archive of [123.txt] with the
    first byte of its header replaced by NUL still has a name field that
    is not all zero, and both scans stop there without an entry. *)
Lemma scan_stops_on_leading_nul :
  ~ (forall (in_file : bytes) (out : list line),
        (exists c, c ∈ take 100 in_file /\ c <> x00) ->
        forall out', list_entry in_file out <> Break out').
Proof.
  intros H.
  destruct (create example_os None (str "123.txt")) as [e|[b [archive|]]] eqn:E;
    try (by vm_compute in E).
  apply (H (x00 :: drop 1 archive) [] ltac:(exists "2"%byte; vm_compute in E;
             injection E as <- <-; split; [|discriminate];
             apply list_elem_of_In; vm_compute; tauto) []).
  vm_compute in E. injection E as <- <-. reflexivity.
Qed.

(** C8, amended. Both scans stop exactly when the first byte at the next
    header position is NUL or nothing is left to read (the name, read as a
    C string, is then empty); otherwise the record is decoded as an entry:
    the turn raises on a malformed number or goes on to the next
    position. *)
Theorem scan_stops_iff_name_starts_with_nul (in_file : bytes) :
  (forall out,
      (exists out', list_entry in_file out = Break out')
      <-> default x00 (head in_file) = x00)
  /\ (forall umask dest_path t,
      (exists t', extract_entry umask dest_path in_file t = Break t')
      <-> default x00 (head in_file) = x00)
  /\ (forall out out', list_entry in_file out = Break out' -> out' = out)
  /\ (forall umask dest_path t t',
        extract_entry umask dest_path in_file t = Break t' -> t' = t)
  /\ (default x00 (head in_file) <> x00 ->
      forall out,
        (exists e, list_entry in_file out = Raise e)
        \/ exists in_file' l,
            list_entry in_file out = Continue in_file' (out ++ [l])
            /\ line_name l
               = TarHeader.get (TarHeader.readinto in_file TarHeader.new).1 TarHeader.name).
Proof.
  split; [intros; apply list_entry_break|].
  split; [intros; apply extract_entry_break|].
  split; [|split].
  - intros out out'. unfold list_entry.
    destruct (TarHeader.readinto in_file TarHeader.new) as [tar_header in_file1].
    case_bool_decide; [congruence|].
    match goal with
    | |- match ?p with inl _ => _ | inr _ => _ end = _ -> _ => destruct p as [e|l]
    end; [discriminate|].
    destruct (Py.read in_file1 (line_size l)) as [? f1].
    destruct (Py.read f1 (padding_size (line_size l))). discriminate.
  - intros umask dest_path t t'. unfold extract_entry.
    destruct (TarHeader.readinto in_file TarHeader.new) as [tar_header in_file1].
    case_bool_decide; [congruence|].
    destruct (Py.int8 _); [discriminate|]. cbv zeta.
    match goal with
    | |- match ?p with inl _ => _ | inr _ => _ end = _ -> _ => destruct p as [e|[f x]]
    end; [discriminate|].
    destruct (Py.read f _). discriminate.
  - intros Hc out. rewrite <- readinto_name_empty in Hc. unfold list_entry.
    destruct (TarHeader.readinto in_file TarHeader.new) as [tar_header in_file1].
    cbn [fst] in *. case_bool_decide; [done|].
    destruct (Py.int8 (TarHeader.get tar_header TarHeader.size)) as [e|file_size];
      [left; eauto|].
    destruct (permission_bits _ _) as [e|permissions]; [left; eauto|].
    destruct (Py.int8 (TarHeader.get tar_header TarHeader.uid)) as [e|uid]; [left; eauto|].
    destruct (Py.int8 (TarHeader.get tar_header TarHeader.gid)) as [e|gid]; [left; eauto|].
    destruct (Py.int8 (TarHeader.get tar_header TarHeader.mtime)) as [e|mtime]; [left; eauto|].
    right. cbn [bind line_size].
    destruct (Py.read in_file1 file_size) as [? f1].
    destruct (Py.read f1 (padding_size file_size)) as [? f2].
    eexists _, _. split; reflexivity.
Qed.

(** ** Unfolding the loops *)

Lemma extract_loop_step umask dest_path in_file t :
  extract_loop umask dest_path in_file t =
    match extract_entry umask dest_path in_file t with
    | Break t' => inr t'
    | Raise e => inl e
    | Continue in_file' t' => extract_loop umask dest_path in_file' t'
    end.
Proof.
  funelim (extract_loop umask dest_path in_file t);
    match goal with e : extract_entry _ _ _ _ = _ |- _ => rewrite e end; reflexivity.
Qed.


Lemma makedirs_step t name :
  fs.makedirs t name =
    let '(head_, tail_) := fs.makedirs_split name in
    match tail_ with
    | [] => fs.mkdir t name
    | _ :: _ =>
        if negb (bool_decide (head_ = [])) && negb (fs.exists_ t head_) then
          t' <- match fs.makedirs t head_ with
                | inr t' => inr t'
                | inl FileExistsError => inr t
                | inl e => inl e
                end ;;
          if bool_decide (tail_ = str ".") then inr t' else fs.mkdir t' name
        else fs.mkdir t name
    end.
Proof.
  funelim (fs.makedirs t name);
    match goal with e : fs.makedirs_split _ = _ |- _ => rewrite e end; reflexivity.
Qed.

(** ** Files in the tree *)

Lemma write_chunks (path : bytes) (perm : Z) (data : bytes) (chunks : list bytes)
    (t : gmap bytes node) :
  t !! path = Some (RegularFile perm data) ->
  fold_left (fs.write path) chunks t
  = <[path := RegularFile perm (data ++ concat chunks)]> t.
Proof.
  revert data t. induction chunks as [|chunk chunks IH]; intros data t Ht; simpl.
  - rewrite app_nil_r. by rewrite insert_id.
  - unfold fs.write at 2. rewrite Ht.
    rewrite (IH (data ++ chunk)) by apply lookup_insert_eq.
    by rewrite insert_insert_eq, app_assoc.
Qed.

Lemma open_wb_lookup (umask : Z) (t t' : gmap bytes node) (path : bytes) :
  fs.open_wb umask t path = inr t' ->
  exists perm, t' = <[path := RegularFile perm []]> t
    /\ (t !! path = None -> perm = Z.land 0x1B6 (Z.lnot umask)).
Proof.
  unfold fs.open_wb. destruct (os.endswith_sep path); [done|].
  destruct (t !! path) as [[|perm data]|] eqn:E; [done| |].
  - intros [= <-]. exists perm. split; [done|]. done.
  - destruct (fs.creatable t path); [|done]. intros [= <-]. eauto.
Qed.

(** ** Absolute names *)

(** C9. When the name of the entry at the next header position is
    absolute, the output path [extract] computes is that name: the turn of
    the loop does not depend on the destination directory, and a regular
    file is created at the name itself. *)
Theorem extract_absolute_name (umask : Z) (dest_path in_file : bytes) (t : tree)
    (in_file' : bytes) (t' : tree) :
  let tar_header := (TarHeader.readinto in_file TarHeader.new).1 in
  let name := TarHeader.get tar_header TarHeader.name in
  os.startswith_sep name = true ->
  extract_entry umask dest_path in_file t = Continue in_file' t' ->
  os.path_join dest_path name = name
  /\ (forall dest_path', extract_entry umask dest_path' in_file t = Continue in_file' t')
  /\ (TarHeader.get tar_header TarHeader.typeflag
        ∈ [TAR_TYPE_REGULAR_FILE; TAR_TYPE_REGULAR_FILE_ALIAS] ->
      exists perm data, t' !! name = Some (RegularFile perm data)).
Proof.
  cbv zeta. intros Habs Hturn.
  assert (forall d, os.path_join d
            (TarHeader.get (TarHeader.readinto in_file TarHeader.new).1 TarHeader.name)
          = TarHeader.get (TarHeader.readinto in_file TarHeader.new).1 TarHeader.name) as Hjoin.
  { intros d. unfold os.path_join. by rewrite Habs. }
  split; [apply Hjoin|]. split.
  - intros dest_path'. rewrite <- Hturn. unfold extract_entry.
    destruct (TarHeader.readinto in_file TarHeader.new) as [tar_header in_file1].
    cbn [fst] in Hjoin. by rewrite !Hjoin.
  - revert Hturn. unfold extract_entry.
    destruct (TarHeader.readinto in_file TarHeader.new) as [tar_header in_file1].
    cbn [fst] in *. rewrite Hjoin.
    case_bool_decide; [done|].
    destruct (Py.int8 _) as [e|file_size]; [done|]. cbv zeta.
    intros Hturn Hreg. rewrite bool_decide_true in Hturn by done.
    destruct (fs.open_wb umask t _) as [e|t1] eqn:Hopen; [done|].
    apply open_wb_lookup in Hopen as (perm & -> & _).
    destruct (read_file_in_chunks in_file1 file_size default_chunk_size) as [chunks f].
    erewrite write_chunks in Hturn by apply lookup_insert_eq.
    destruct (Py.read f (padding_size file_size)) as [? f'].
    injection Hturn as _ <-. rewrite insert_insert_eq, lookup_insert_eq. eauto.
Qed.

Lemma extract_absolute_name_witness :
  let name := str "/srv/123.txt" in
  os.startswith_sep name = true
  /\ os.path_join (str "out") name = name
  /\ exists t',
      (forall dest_path',
          extract_entry 0x12 dest_path' example_absolute_archive example_tree
          = Continue [] t')
      /\ (exists perm data, t' !! name = Some (RegularFile perm data))
      /\ t' !! (str "out/srv/123.txt") = None.
Proof.
  cbv zeta.
  assert (match extract_entry 0x12 (str "out") example_absolute_archive example_tree with
          | Continue in_file' t' => in_file' = [] /\ t' !! (str "out/srv/123.txt") = None
          | _ => False
          end) as Hrun by (vm_compute; split; reflexivity).
  destruct (extract_entry 0x12 (str "out") example_absolute_archive example_tree)
    as [|in_file' t'|] eqn:E; try contradiction.
  destruct Hrun as [-> Hout].
  pose proof (extract_absolute_name 0x12 (str "out") example_absolute_archive example_tree
                [] t' ltac:(vm_compute; reflexivity) E) as (Hjoin & Hany & Hfile).
  split; [reflexivity|]. split; [exact Hjoin|].
  exists t'. split; [exact Hany|].
  split; [apply Hfile; vm_compute; left|exact Hout].
Defined.

(** ** The round trip of a regular file *)



Lemma read_prefix (data rest : bytes) n :
  Z.of_nat (length data) = n -> Py.read (data ++ rest) n = (data, rest).
Proof.
  intros <-. unfold Py.read. destruct (Z.ltb_spec (Z.of_nat (length data)) 0); [lia|].
  rewrite Nat2Z.id, take_app_length, drop_app_length. reflexivity.
Qed.


Lemma readinto_full (h rest : bytes) :
  length h = 512%nat -> TarHeader.readinto (h ++ rest) TarHeader.new = (h, rest).
Proof.
  intros Hh. unfold TarHeader.readinto.
  rewrite read_prefix by (rewrite Hh; reflexivity).
  unfold ctypes.poke. rewrite take_0, Hh. simpl. by rewrite app_nil_r.
Qed.



(** Following the assignments of a header that was built. *)
Ltac set_field_done H :=
  match type of H with
  | bind (TarHeader.set ?h ?f ?v) _ = inr _ =>
      let h' := fresh "h" in
      let E := fresh "E" in
      let e := fresh "e" in
      let Hlen := fresh "Hlen" in
      assert (length h = 512%nat) as Hlen by (reflexivity || assumption);
      destruct (TarHeader.set h f v) as [e|h'] eqn:E; [discriminate H|];
      cbn [bind] in H;
      pose proof (set_length h f v h' Hlen E);
      first [ pose proof (get_set_typeflag h v h' Hlen E)
            | let Hne := fresh in
              assert (f <> TarHeader.typeflag) as Hne by discriminate;
              pose proof (get_set_array h f v h' Hne Hlen E);
              clear Hne ];
      carry_fields h f v h' Hlen E;
      clear E
  end.

(** The header just before the checksum is stored: its checksum field
    holds eight spaces. *)
Lemma add_header_before_checksum filename file_stat typeflag linkname username group
    tar_header :
  add_header filename file_stat typeflag linkname username group = inr tar_header ->
  exists h,
    length h = 512%nat
    /\ TarHeader.get h TarHeader.chksum = replicate 8 " "%byte
    /\ TarHeader.set h TarHeader.chksum (Py.format_o 6 (get_header_checksum h))
       = inr tar_header.
Proof.
  unfold add_header. intros H.
  do 17 set_field_done H.
  eexists. split; [eassumption|]. split; [assumption|exact H].
Qed.

Lemma add_header_length filename file_stat typeflag linkname username group tar_header :
  add_header filename file_stat typeflag linkname username group = inr tar_header ->
  length tar_header = 512%nat.
Proof.
  intros (h & Hlen & _ & Hset)%add_header_before_checksum. by eapply set_length.
Qed.




(** Three runs of the example systems at which C1, as the claim states
    it, fails. *)






(** * Further properties *)

(** ** The permission string *)

Lemma land_pow2 x k :
  0 <= k -> Z.land x (2 ^ k) = if Z.testbit x k then 2 ^ k else 0.
Proof.
  intros Hk. apply Z.bits_inj'. intros i Hi.
  rewrite Z.land_spec, Z.pow2_bits_eqb by done.
  destruct (Z.eqb_spec k i) as [->|Hne].
  - destruct (Z.testbit x i) eqn:E; simpl.
    + by rewrite Z.pow2_bits_true.
    + by rewrite Z.bits_0.
  - rewrite andb_false_r. destruct (Z.testbit x k).
    + by rewrite Z.pow2_bits_false.
    + by rewrite Z.bits_0.
Qed.

Lemma land_mask x :
  (Z.land x 4 =? 0) = negb (Z.testbit x 2)
  /\ (Z.land x 2 =? 0) = negb (Z.testbit x 1)
  /\ (Z.land x 1 =? 0) = negb (Z.testbit x 0).
Proof.
  assert (Z.land x 4 = if Z.testbit x 2 then 4 else 0) as H2
    by (apply (land_pow2 x 2); lia).
  assert (Z.land x 2 = if Z.testbit x 1 then 2 else 0) as H1
    by (apply (land_pow2 x 1); lia).
  assert (Z.land x 1 = if Z.testbit x 0 then 1 else 0) as H0
    by (apply (land_pow2 x 0); lia).
  rewrite H2, H1, H0.
  split; [by destruct (Z.testbit x 2)|].
  split; [by destruct (Z.testbit x 1)|by destruct (Z.testbit x 0)].
Qed.

Lemma if_singleton (b : bool) (x y : byte) :
  (if negb b then [x] else [y]) = [if b then y else x].
Proof. by destruct b. Qed.

Lemma TYPE_FLAGS_one_char typeflag :
  length (default (str "?") (TYPE_FLAGS !! typeflag)) = 1%nat.
Proof.
  destruct (TYPE_FLAGS !! typeflag) as [flag|] eqn:E; [|reflexivity]. simpl.
  apply elem_of_list_to_map_2 in E.
  repeat (apply elem_of_cons in E as [[= _ ->]|E]; [reflexivity|]).
  by apply elem_of_nil in E.
Qed.

(** X1. For a mode that reads as an octal number and a type flag of one
    character, [permission_bits] renders ten characters: the character of
    the type flag ([?] for an unknown one), then for each of the nine low
    bits of the mode, from bit 8 down to bit 0, its letter of [rwxrwxrwx]
    when the bit is set and [-] when it is not. *)
Theorem permission_bits_renders (str_value typeflag : bytes) (value : Z) :
  Py.int8 str_value = inr value ->
  length typeflag = 1%nat ->
  exists res,
    permission_bits str_value typeflag = inr res
    /\ length res = 10%nat
    /\ take 1 res = default (str "?") (TYPE_FLAGS !! typeflag)
    /\ forall i : nat, (i < 9)%nat ->
         res !! S i = if Z.testbit value (8 - Z.of_nat i)
                      then str "rwxrwxrwx" !! i else Some "-"%byte.
Proof.
  intros Hint Hone. unfold permission_bits. rewrite Hint, Hone. cbn [bind Nat.eqb negb].
  pose proof (TYPE_FLAGS_one_char typeflag) as Hflag.
  destruct (default (str "?") (TYPE_FLAGS !! typeflag)) as [|flag [|]]; try done.
  destruct (land_mask (Z.shiftr value 6)) as (-> & -> & ->).
  destruct (land_mask (Z.shiftr value 3)) as (-> & -> & ->).
  destruct (land_mask value) as (-> & -> & ->).
  rewrite !Z.shiftr_spec by lia. simpl Z.add.
  change (str "-") with ["-"%byte]. change (str "r") with ["r"%byte].
  change (str "w") with ["w"%byte]. change (str "x") with ["x"%byte].
  rewrite !if_singleton. cbn [app].
  change (2 + 6) with 8. change (1 + 6) with 7. change (0 + 6) with 6.
  change (2 + 3) with 5. change (1 + 3) with 4. change (0 + 3) with 3.
  eexists. split; [reflexivity|]. split; [reflexivity|]. split; [reflexivity|].
  intros i Hi.
  do 9 (destruct i as [|i];
        [match goal with
         | |- _ = if Z.testbit value ?k then _ else _ =>
             let k' := eval vm_compute in k in
             change k with k'; destruct (Z.testbit value k'); reflexivity
         end|]).
  lia.
Qed.

Lemma permission_bits_renders_witness :
  exists res,
    permission_bits (str "0000755") TAR_TYPE_DIR = inr res
    /\ length res = 10%nat
    /\ take 1 res = default (str "?") (TYPE_FLAGS !! TAR_TYPE_DIR)
    /\ forall i : nat, (i < 9)%nat ->
         res !! S i = if Z.testbit 493 (8 - Z.of_nat i)
                      then str "rwxrwxrwx" !! i else Some "-"%byte.
Proof.
  apply (permission_bits_renders (str "0000755") TAR_TYPE_DIR 493); reflexivity.
Defined.

(** ** The header [add] builds *)



Lemma c_str_full (x : bytes) : length (ctypes.c_str x) = length x -> ctypes.c_str x = x.
Proof.
  induction x as [|c x IH]; simpl; [done|].
  destruct (Byte.eqb c x00); simpl; [done|]. intros [= H]. by rewrite IH.
Qed.

Lemma poke_poke_back (h : bytes) offset (old new : bytes) :
  (offset + length old <= length h)%nat ->
  (length new <= length old)%nat ->
  take (length old) (drop offset h) = old ->
  ctypes.poke (ctypes.poke h offset new) offset old = h.
Proof.
  intros Hh Hn Hold. apply list_eq. intros i.
  assert (length (ctypes.poke h offset new) = length h) as Hlen
    by (apply poke_length; lia).
  rewrite poke_lookup by lia. case_decide as Hi.
  - rewrite <- Hold, lookup_take_lt, lookup_drop by lia. f_equal. lia.
  - rewrite poke_lookup by lia. case_decide; [lia|done].
Qed.

(** X3. The checksum [add] stores is the ustar checksum: the sum of the
    512 header bytes with the checksum field itself counted as eight
    spaces. The field holds it as six octal digits, a NUL and a space, and
    reads back as that number. *)
Theorem stored_checksum_is_valid (filename : bytes) (file_stat : stat_result)
    (typeflag linkname username group tar_header : bytes) :
  add_header filename file_stat typeflag linkname username group = inr tar_header ->
  let checksum :=
    get_header_checksum
      (ctypes.poke tar_header (TarHeader.offsetof TarHeader.chksum) (replicate 8 " "%byte)) in
  raw tar_header TarHeader.chksum = Py.format_o 6 checksum ++ [x00; " "%byte]
  /\ length (Py.format_o 6 checksum) = 6%nat
  /\ Py.int8 (TarHeader.get tar_header TarHeader.chksum) = inr checksum.
Proof.
  intros (h & Hlen & Hspaces & Hset)%add_header_before_checksum. cbv zeta.
  assert (raw h TarHeader.chksum = replicate 8 " "%byte) as Hraw.
  { rewrite get_raw in Hspaces. change (TarHeader.typeof TarHeader.chksum)
      with (ctypes.c_char_array 8) in Hspaces. cbv iota in Hspaces.
    rewrite <- Hspaces. symmetry. apply c_str_full. rewrite Hspaces.
    unfold raw. rewrite length_take, length_drop, Hlen. reflexivity. }
  pose proof (format_o_checksum_length h Hlen) as Htext.
  pose proof (get_header_checksum_bounds h) as Hcs.
  apply set_inr in Hset as (data & -> & _ & Hdata).
  change (TarHeader.typeof TarHeader.chksum) with (ctypes.c_char_array 8) in Hdata.
  cbv iota in Hdata. destruct Hdata as [_ ->].
  rewrite c_str_format_o, Htext. change (6 <? 8)%nat with true. cbv iota.
  set (text := Py.format_o 6 (get_header_checksum h)) in *.
  change (TarHeader.offsetof TarHeader.chksum) with 148%nat in *.
  assert (ctypes.poke (ctypes.poke h 148 (text ++ [x00])) 148 (replicate 8 " "%byte) = h)
    as Hback.
  { apply (poke_poke_back h 148 (replicate 8 " "%byte)).
    - rewrite Hlen. simpl. lia.
    - rewrite length_app, Htext. simpl. lia.
    - exact Hraw. }
  rewrite Hback. fold text.
  assert (raw (ctypes.poke h 148 (text ++ [x00])) TarHeader.chksum
          = text ++ [x00; " "%byte]) as Hfield.
  { unfold raw, ctypes.poke.
    change (TarHeader.offsetof TarHeader.chksum) with 148%nat.
    change (TarHeader.width TarHeader.chksum) with 8%nat.
    rewrite drop_app_length' by (rewrite length_take; lia).
    rewrite length_app, Htext. simpl length.
    rewrite take_app_ge by (rewrite length_app, Htext; simpl; lia).
    rewrite length_app, Htext. simpl length. rewrite <- app_assoc. f_equal. simpl.
    f_equal.
    assert (take 1 (drop 155 h) = drop 7 (replicate 8 " "%byte)) as ->; [|reflexivity].
    rewrite <- Hraw. unfold raw.
    change (TarHeader.offsetof TarHeader.chksum) with 148%nat.
    change (TarHeader.width TarHeader.chksum) with 8%nat.
    rewrite skipn_firstn_comm, drop_drop. reflexivity. }
  split; [exact Hfield|]. split; [exact Htext|].
  rewrite get_raw. change (TarHeader.typeof TarHeader.chksum) with (ctypes.c_char_array 8).
  cbv iota. rewrite Hfield, c_str_app_nul.
  - apply int8_format_o. lia.
  - apply format_o_no_nul.
Qed.

Lemma stored_checksum_is_valid_witness :
  exists tar_header,
    add_header (str "123.txt") (example_stat 0x81ED 13) TAR_TYPE_REGULAR_FILE []
      (str "user") (str "users") = inr tar_header
    /\ raw tar_header TarHeader.chksum = str "012327" ++ [x00; " "%byte]
    /\ Py.int8 (TarHeader.get tar_header TarHeader.chksum) = inr 5335.
Proof.
  destruct (add_header (str "123.txt") (example_stat 0x81ED 13) TAR_TYPE_REGULAR_FILE []
              (str "user") (str "users")) as [e|tar_header] eqn:E; [by vm_compute in E|].
  exists tar_header. split; [reflexivity|].
  destruct (stored_checksum_is_valid _ _ _ _ _ _ _ E) as (Hraw & _ & Hint).
  vm_compute in E. injection E as <-. split; [exact Hraw|exact Hint].
Defined.

(** ** What [add] appends *)

(** X4. [add] only appends: when it returns [True], the archive afterwards
    is the archive before (empty when there was none) followed by an entry
    of at least 512 bytes; it returns [False] exactly when the path is
    missing, and then leaves the archive as it was. *)
Theorem add_only_appends (w : OS) (archive : archive_file) (filename : bytes)
    (result : bool) (archive' : archive_file) :
  add w archive filename = inr (result, archive') ->
  result = os.path_exists w filename
  /\ if result then
       exists entry,
         archive' = Some (default [] archive ++ entry) /\ (512 <= length entry)%nat
     else archive' = archive.
Proof.
  unfold add. destruct (os.path_exists w filename).
  2:{ simpl. intros [= <- <-]. done. }
  simpl.
  destruct (get_group_name w (getuser w)) as [e|group]; [done|]. simpl.
  destruct (get_uid_and_gid w (getuser w)) as [e|ids]; [done|]. simpl.
  destruct (os.stat w filename) as [e|file_stat]; [done|]. simpl.
  destruct (set_file_type w filename (st_mode file_stat)) as [e|[typeflag linkname]];
    [done|]. simpl.
  destruct (add_header _ _ _ _ _ _) as [e|tar_header] eqn:Hh; [done|]. simpl.
  destruct (os.path_getsize w filename) as [e|file_size]; [done|]. simpl.
  destruct (add_body w filename typeflag file_size) as [e|body]; [done|]. simpl.
  intros [= <- <-]. split; [done|]. exists (tar_header ++ body). split; [done|].
  rewrite length_app, (add_header_length _ _ _ _ _ _ _ Hh). lia.
Qed.

Lemma add_only_appends_witness :
  exists entry,
    add example_os (Some (str "old")) (str "123.txt") = inr (true, Some (str "old" ++ entry))
    /\ (512 <= length entry)%nat.
Proof.
  assert (exists archive',
            add example_os (Some (str "old")) (str "123.txt") = inr (true, archive'))
    as [archive' E] by (eexists; vm_compute; reflexivity).
  destruct (add_only_appends example_os (Some (str "old")) (str "123.txt") true archive' E)
    as (_ & entry & -> & Hlen).
  exists entry. split; [exact E|exact Hlen].
Defined.



(** ** Listing what was added *)












(** ** The chunked reader at the end of a file *)

Lemma read_file_in_chunks_from_drains in_file file_size chunk_size read_bytes :
  0 < chunk_size ->
  0 <= read_bytes ->
  Z.of_nat (length in_file) <= file_size - read_bytes ->
  let r := read_file_in_chunks_from in_file file_size chunk_size read_bytes in
  concat r.1 = in_file /\ r.2 = [].
Proof.
  intros Hcs. cbv zeta.
  funelim (read_file_in_chunks_from in_file file_size chunk_size read_bytes);
    intros Hrb Hcase; clear Heqcall;
    match goal with e : Py.read _ _ = _ |- _ => generalize e end;
    unfold Py.read;
    set (n := if read_bytes >? file_size - chunk_size
              then file_size - read_bytes else chunk_size);
    assert (n = Z.min chunk_size (file_size - read_bytes)) as Hn
      by (subst n; destruct (Z.gtb_spec read_bytes (file_size - chunk_size)); lia);
    clearbody n;
    (destruct (Z.ltb_spec n 0) as [Hneg|Hpos]; [lia|]); intros [= Htake Hdrop].
  - assert (in_file = []) as ->.
    { destruct in_file as [|c in_file]; [done|]. exfalso.
      apply (f_equal length) in Htake. rewrite length_take in Htake.
      simpl in Htake. simpl in Hcase. lia. }
    rewrite drop_nil in Hdrop. by subst.
  - assert (Z.of_nat (length (c :: chunk)) = Z.min n (Z.of_nat (length in_file))) as Hc.
    { rewrite <- Htake, length_take. lia. }
    cbn [fst snd concat].
    match goal with
    | IH : 0 < _ -> _ |- _ =>
        destruct IH as [IH1 IH2];
          [lia|lia|rewrite <- Hdrop, length_drop; lia|]
    end.
    rewrite IH1, IH2, <- Htake, <- Hdrop. split; [apply take_drop|done].
Qed.

(** No chunk is empty or longer than [chunk_size]. *)
Lemma read_file_in_chunks_from_sizes in_file file_size chunk_size read_bytes :
  0 < chunk_size ->
  0 <= read_bytes <= file_size ->
  Forall (fun chunk => 0 < Z.of_nat (length chunk) <= chunk_size)
    (read_file_in_chunks_from in_file file_size chunk_size read_bytes).1.
Proof.
  intros Hcs.
  funelim (read_file_in_chunks_from in_file file_size chunk_size read_bytes);
    intros Hrb; clear Heqcall; [constructor|].
  match goal with e : Py.read _ _ = _ |- _ => generalize e end.
  unfold Py.read.
  set (n := if read_bytes >? file_size - chunk_size
            then file_size - read_bytes else chunk_size).
  assert (n = Z.min chunk_size (file_size - read_bytes)) as Hn
    by (subst n; destruct (Z.gtb_spec read_bytes (file_size - chunk_size)); lia).
  clearbody n.
  destruct (Z.ltb_spec n 0) as [Hneg|Hpos]; [lia|]. intros [= Htake Hdrop].
  assert (Z.of_nat (length (c :: chunk)) <= n) as Hc
    by (rewrite <- Htake, length_take; lia).
  cbn [fst]. constructor.
  - simpl length in *. lia.
  - match goal with IH : 0 < _ -> _ |- _ => apply IH; [done|lia] end.
Qed.

(** X8. When the file holds no more than [file_size] bytes (a truncated
    archive), the chunked reader stops at the end of the file: the chunks
    put together are everything that was left, none of them is empty or
    longer than [chunk_size], and nothing is left unread. *)
Theorem read_file_in_chunks_drains (in_file : bytes) (file_size chunk_size : Z) :
  0 < chunk_size ->
  Z.of_nat (length in_file) <= file_size ->
  let r := read_file_in_chunks in_file file_size chunk_size in
  concat r.1 = in_file
  /\ r.2 = []
  /\ Forall (fun chunk => 0 < Z.of_nat (length chunk) <= chunk_size) r.1.
Proof.
  intros Hcs Hcase. cbv zeta.
  destruct (read_file_in_chunks_from_drains in_file file_size chunk_size 0) as [H1 H2];
    [done|lia|rewrite Z.sub_0_r; lia|].
  split; [exact H1|]. split; [exact H2|].
  apply read_file_in_chunks_from_sizes; [done|lia].
Qed.

Lemma read_file_in_chunks_drains_witness :
  let r := read_file_in_chunks (str "0123456789") 13 4 in
  concat r.1 = str "0123456789"
  /\ r.2 = []
  /\ Forall (fun chunk => 0 < Z.of_nat (length chunk) <= 4) r.1.
Proof.
  apply (read_file_in_chunks_drains (str "0123456789") 13 4); [lia|]. simpl. lia.
Defined.

(** ** What the readers do not look at *)

Lemma get_poke_other (h : bytes) (f g : TarHeader.field) (v : bytes) :
  length h = 512%nat -> (length v <= TarHeader.width f)%nat -> g <> f ->
  TarHeader.get (ctypes.poke h (TarHeader.offsetof f) v) g = TarHeader.get h g.
Proof.
  intros Hh Hv Hne. rewrite !get_raw.
  assert (raw (ctypes.poke h (TarHeader.offsetof f) v) g = raw h g) as ->; [|done].
  unfold raw. pose proof (field_in_header f).
  apply poke_slice_other; [lia|]. destruct (fields_disjoint g f Hne); lia.
Qed.

Lemma readinto_poke (in_file v : bytes) (offset : nat) :
  (offset + length v <= 512)%nat -> (512 <= length in_file)%nat ->
  TarHeader.readinto (ctypes.poke in_file offset v) TarHeader.new
  = (ctypes.poke (take 512 in_file) offset v, drop 512 in_file).
Proof.
  intros Hv Hlen.
  assert (ctypes.poke in_file offset v
          = ctypes.poke (take 512 in_file) offset v ++ drop 512 in_file) as ->.
  { unfold ctypes.poke. rewrite take_take, Nat.min_l by lia.
    rewrite <- !app_assoc. do 2 f_equal.
    rewrite <- (take_drop (512 - (offset + length v)) (drop (offset + length v) in_file)) at 1.
    f_equal.
    - rewrite skipn_firstn_comm. done.
    - rewrite drop_drop. f_equal. lia. }
  apply readinto_full. rewrite poke_length; rewrite length_take; lia.
Qed.

(** X9. Neither [list_content] nor [extract] looks at the checksum: the
    turn of either loop on a full header record is the same whatever eight
    bytes the checksum field holds. *)
Theorem checksum_is_not_verified (in_file chksum : bytes) :
  (512 <= length in_file)%nat ->
  length chksum = 8%nat ->
  let in_file' := ctypes.poke in_file (TarHeader.offsetof TarHeader.chksum) chksum in
  (forall out, list_entry in_file' out = list_entry in_file out)
  /\ (forall umask dest_path t,
        extract_entry umask dest_path in_file' t = extract_entry umask dest_path in_file t).
Proof.
  intros Hlen Hv. cbv zeta.
  assert (TarHeader.readinto in_file TarHeader.new = (take 512 in_file, drop 512 in_file))
    as Hread.
  { rewrite <- (take_drop 512 in_file) at 1. apply readinto_full.
    rewrite length_take. lia. }
  assert (forall g, g <> TarHeader.chksum ->
            TarHeader.get (ctypes.poke (take 512 in_file)
                             (TarHeader.offsetof TarHeader.chksum) chksum) g
            = TarHeader.get (take 512 in_file) g) as Hget.
  { intros g Hg. apply get_poke_other; [rewrite length_take; lia| |done].
    rewrite Hv. reflexivity. }
  split.
  - intros out. unfold list_entry.
    rewrite readinto_poke by (rewrite ?Hv; first [exact Hlen|vm_compute; lia]).
    rewrite Hread.
    by rewrite !Hget by discriminate.
  - intros umask dest_path t. unfold extract_entry.
    rewrite readinto_poke by (rewrite ?Hv; first [exact Hlen|vm_compute; lia]).
    rewrite Hread.
    by rewrite !Hget by discriminate.
Qed.

Lemma checksum_is_not_verified_witness :
  let in_file := example_absolute_archive in
  let in_file' := ctypes.poke in_file (TarHeader.offsetof TarHeader.chksum) (str "99999999") in
  (forall out, list_entry in_file' out = list_entry in_file out)
  /\ (forall umask dest_path t,
        extract_entry umask dest_path in_file' t = extract_entry umask dest_path in_file t).
Proof.
  apply (checksum_is_not_verified example_absolute_archive (str "99999999"));
    [vm_compute; lia|reflexivity].
Defined.



(** ** Directories *)




(** ** Links *)

(** X12. Whatever the path, [is_hard_link] returns [False] and the type
    [add] gives the entry is neither a symbolic nor a hard link, with an
    empty link name: [os.stat] has already followed the link. *)
Theorem no_entry_is_a_link (w : OS) (filename : bytes) (file_stat : stat_result) :
  os.stat w filename = inr file_stat ->
  is_hard_link w filename = inr false
  /\ exists typeflag,
      set_file_type w filename (st_mode file_stat) = inr (typeflag, [])
      /\ typeflag <> TAR_TYPE_SYMLINK /\ typeflag <> TAR_TYPE_HARDLINK.
Proof. apply set_file_type_not_link. Qed.

Lemma no_entry_is_a_link_witness :
  is_hard_link example_os (str "link") = inr false
  /\ exists typeflag,
      set_file_type example_os (str "link") (st_mode (example_stat 0x81ED 13))
      = inr (typeflag, [])
      /\ typeflag <> TAR_TYPE_SYMLINK /\ typeflag <> TAR_TYPE_HARDLINK.
Proof.
  apply (no_entry_is_a_link example_os (str "link") (example_stat 0x81ED 13)).
  reflexivity.
Defined.

(** ** The command line *)

(** X13. Without an existing archive file the command line does nothing,
    whatever the action, [create] included: status 1, no archive written,
    the tree untouched, nothing printed. *)
Theorem main_needs_existing_archive (w : OS) (umask : Z) (args : arguments) (t : tree) :
  main w umask args None t
  = inr {| exit_status := 1; archive_after := None; tree_after := t; printed := [] |}.
Proof.
  unfold main.
  destruct (negb _ || _ || _); [reflexivity|].
  rewrite bool_decide_false by (by intros [? ?]). reflexivity.
Qed.

Lemma add_flag w archive filename r :
  add w archive filename = inr r -> r.1 = os.path_exists w filename.
Proof.
  unfold add. destruct (os.path_exists w filename); simpl; [|by intros [= <-]].
  repeat match goal with
         | |- bind ?m _ = _ -> _ => destruct m as [?|?]; simpl; [done|]
         | |- (let '(_, _) := ?p in _) = _ -> _ => destruct p
         end.
  by intros [= <-].
Qed.

Lemma create_flag w archive file_or_dir r :
  create w archive file_or_dir = inr r -> r.1 = os.path_exists w file_or_dir.
Proof.
  intros H. destruct (os.path_exists w file_or_dir) eqn:Hex.
  - revert H. unfold create. rewrite Hex. simpl.
    destruct (os.path_isfile w file_or_dir).
    + by apply add_to_keeps_true.
    + apply (for_each_invariant (fun st => st.1 = true)); [|reflexivity].
      intros st [[dirname dirs] files] st' Hst.
      destruct (add_to w st dirname) as [e|st1] eqn:E; simpl; [done|].
      apply add_to_keeps_true in E; [|done].
      apply (for_each_invariant (fun st => st.1 = true)); [|done].
      intros s x s' Hs. by apply add_to_keeps_true.
  - revert H. unfold create. rewrite Hex. simpl. by intros [= <-].
Qed.

(** X14. When a run of the command line ends without an exception, its
    status is 0 exactly when an action and an archive were named (and a
    path, for [add] and [create]), the archive file exists, and, for [add]
    and [create], the path to archive exists. *)
Theorem main_exit_status (w : OS) (umask : Z) (args : arguments)
    (archive : archive_file) (t : tree) (o : outcome) :
  main w umask args archive t = inr o ->
  let any_action :=
    args_add args || args_create args || args_list args || args_extract args in
  exit_status o =
    if any_action && given (args_file args)
       && implb (args_add args || args_create args) (given (args_file_or_dir args))
       && bool_decide (is_Some archive)
       && implb (args_add args || args_create args)
            (os.path_exists w (default [] (args_file_or_dir args)))
    then 0 else 1.
Proof.
  unfold main. cbv zeta.
  destruct (args_add args) eqn:Ha, (args_create args) eqn:Hc, (args_list args) eqn:Hl,
    (args_extract args) eqn:Hx, (given (args_file args)) eqn:Hf,
    (given (args_file_or_dir args)) eqn:Hp, (bool_decide (is_Some archive)) eqn:Har;
    cbn [negb orb andb implb];
    try (by intros [= <-]);
    repeat match goal with
    | |- bind ?m _ = _ -> _ =>
        let E := fresh "E" in destruct m as [?|?] eqn:E; cbn [bind]; [done|]
    end;
    intros [= <-]; cbn [exit_status];
    try match goal with
        | E : create _ _ _ = inr _ |- _ => apply create_flag in E
        | E : add _ _ _ = inr _ |- _ => apply add_flag in E
        end;
    try match goal with
        | E : ?x = os.path_exists _ _ |- _ => rewrite E
        end;
    try reflexivity;
    try (by destruct (os.path_exists _ _)).
  all: try match goal with
       | E : extract _ _ _ _ = inr ?r |- _ =>
           unfold extract in E;
           repeat match type of E with
                  | bind ?m _ = _ => destruct m as [?|?]; cbn [bind] in E; [done|]
                  end;
           by injection E as <-
       | E : list_content _ = inr ?r |- _ =>
           unfold list_content in E;
           repeat match type of E with
                  | bind ?m _ = _ => destruct m as [?|?]; cbn [bind] in E; [done|]
                  end;
           by injection E as <-
       end.
Qed.

Lemma main_exit_status_witness :
  let args := {| args_add := false; args_create := true; args_list := false;
                 args_extract := false; args_file := Some (str "out.tar");
                 args_verbose := false; args_file_or_dir := Some (str "missing") |} in
  exists o,
    main example_os 0x12 args (Some (str "old")) ∅ = inr o
    /\ exit_status o = 1
    /\ archive_after o = Some (str "old").
Proof.
  cbv zeta.
  assert (exists o,
    main example_os 0x12
      {| args_add := false; args_create := true; args_list := false;
         args_extract := false; args_file := Some (str "out.tar");
         args_verbose := false; args_file_or_dir := Some (str "missing") |}
      (Some (str "old")) ∅ = inr o /\ archive_after o = Some (str "old")) as (o & E & Ha)
    by (eexists; split; reflexivity).
  exists o. split; [exact E|]. split; [|exact Ha].
  rewrite (main_exit_status _ _ _ _ _ _ E). reflexivity.
Defined.

(** ** End markers *)




(** ** Archiving a directory *)








(** ** What [extract] leaves in place *)

Lemma kept_refl t : kept t t.
Proof. intros path. destruct (t !! path) as [[|perm data]|]; eauto. Qed.

Lemma kept_trans t1 t2 t3 : kept t1 t2 -> kept t2 t3 -> kept t1 t3.
Proof.
  intros H12 H23 path. specialize (H12 path). specialize (H23 path).
  destruct (t1 !! path) as [[|perm data]|]; [| |done].
  - by rewrite H12 in H23.
  - destruct H12 as [data' H12]. by rewrite H12 in H23.
Qed.

Lemma kept_insert_fresh t path n : t !! path = None -> kept t (<[path := n]> t).
Proof.
  intros Hfresh other. destruct (decide (other = path)) as [->|Hne].
  - by rewrite Hfresh.
  - rewrite lookup_insert_ne by done. destruct (t !! other) as [[|perm data]|]; eauto.
Qed.

Lemma kept_insert_file t path perm data data' :
  t !! path = Some (RegularFile perm data) ->
  kept t (<[path := RegularFile perm data']> t).
Proof.
  intros Hfile other. destruct (decide (other = path)) as [->|Hne].
  - rewrite Hfile, lookup_insert_eq. eauto.
  - rewrite lookup_insert_ne by done. destruct (t !! other) as [[|perm' data'']|]; eauto.
Qed.

Lemma mkdir_kept t path t' : fs.mkdir t path = inr t' -> kept t t'.
Proof.
  unfold fs.mkdir, fs.exists_. case_bool_decide as Hex; [discriminate|].
  destruct (fs.creatable t (fs.norm path)); [|discriminate].
  intros [= <-]. apply kept_insert_fresh.
  destruct (t !! fs.norm path) eqn:E; [|done]. exfalso. apply Hex. eauto.
Qed.

Lemma makedirs_kept t name t' : fs.makedirs t name = inr t' -> kept t t'.
Proof.
  revert t t'. induction name as [name IH] using (induction_ltof1 _ (@length byte)).
  unfold ltof in IH. intros t t'. rewrite makedirs_step.
  destruct (fs.makedirs_split name) as [head_ [|c tail_]] eqn:Hsplit; [apply mkdir_kept|].
  pose proof (fs.makedirs_split_length _ _ _ _ Hsplit) as Hlt.
  destruct (negb (bool_decide (head_ = [])) && negb (fs.exists_ t head_)); [|apply mkdir_kept].
  assert (forall t1,
            match fs.makedirs t head_ with
            | inr t' => inr t'
            | inl FileExistsError => inr t
            | inl e => inl e
            end = inr t1 -> kept t t1) as Hhead.
  { intros t1. destruct (fs.makedirs t head_) as [[]|t2] eqn:E; try discriminate.
    - intros [= <-]. apply kept_refl.
    - intros [= <-]. by eapply IH. }
  destruct (match fs.makedirs t head_ with
            | inr t' => inr t'
            | inl FileExistsError => inr t
            | inl e => inl e
            end) as [e|t1]; [discriminate|]. cbn [bind].
  specialize (Hhead t1 eq_refl). case_bool_decide.
  - by intros [= <-].
  - intros Hmk. eapply kept_trans; [exact Hhead|]. by eapply mkdir_kept.
Qed.

Lemma open_wb_kept umask t path t' : fs.open_wb umask t path = inr t' -> kept t t'.
Proof.
  unfold fs.open_wb. destruct (os.endswith_sep path); [discriminate|].
  destruct (t !! path) as [[|perm data]|] eqn:E; [discriminate| |].
  - intros [= <-]. by eapply kept_insert_file.
  - destruct (fs.creatable t path); [|discriminate].
    intros [= <-]. by apply kept_insert_fresh.
Qed.

Lemma write_kept path t chunk : kept t (fs.write path t chunk).
Proof.
  unfold fs.write. destruct (t !! path) as [[|perm data]|] eqn:E; try apply kept_refl.
  by eapply kept_insert_file.
Qed.

Lemma writes_kept path (chunks : list bytes) t :
  kept t (fold_left (fs.write path) chunks t).
Proof.
  revert t. induction chunks as [|chunk chunks IH]; intros t; simpl; [apply kept_refl|].
  eapply kept_trans; [apply write_kept|apply IH].
Qed.

Lemma extract_entry_kept umask dest_path in_file t :
  match extract_entry umask dest_path in_file t with
  | Break t' | Continue _ t' => kept t t'
  | Raise _ => True
  end.
Proof.
  unfold extract_entry.
  destruct (TarHeader.readinto in_file TarHeader.new) as [tar_header in_file1].
  case_bool_decide; [apply kept_refl|].
  destruct (Py.int8 _) as [e|file_size]; [done|].
  repeat case_bool_decide.
  - destruct (fs.open_wb _ _ _) as [e|t1] eqn:Hopen; [done|].
    destruct (read_file_in_chunks _ _ _) as [chunks in_file2].
    destruct (Py.read in_file2 _) as [? in_file3].
    eapply kept_trans; [by eapply open_wb_kept|apply writes_kept].
  - destruct (fs.makedirs _ _) as [e|t1] eqn:Hmk;
      destruct (Py.read in_file1 _) as [? in_file3]; [apply kept_refl|].
    by eapply makedirs_kept.
  - destruct (Py.read in_file1 _) as [? in_file3]. apply kept_refl.
Qed.

Lemma extract_loop_kept umask dest_path in_file t t' :
  extract_loop umask dest_path in_file t = inr t' -> kept t t'.
Proof.
  revert t t'. induction in_file as [in_file IH] using (induction_ltof1 _ (@length byte)).
  unfold ltof in IH. intros t t'. rewrite extract_loop_step.
  pose proof (extract_entry_kept umask dest_path in_file t) as Hk.
  destruct (extract_entry umask dest_path in_file t) as [t1|in_file1 t1|e] eqn:E.
  - by intros [= <-].
  - intros Hloop. eapply kept_trans; [exact Hk|].
    eapply IH; [|exact Hloop]. by eapply extract_entry_shrinks.
  - discriminate.
Qed.

(** X17. [extract] removes nothing from the destination: when it returns,
    every directory that was there is still a directory, and every file
    that was there is still a file with the permission bits it had (its
    content may have been replaced). *)
Theorem extract_keeps_what_is_there (umask : Z) (archive : archive_file)
    (dest_path : bytes) (t t' : tree) (result : bool) :
  extract umask archive dest_path t = inr (result, t') ->
  forall path,
    (t !! path = Some Directory -> t' !! path = Some Directory)
    /\ (forall perm data,
           t !! path = Some (RegularFile perm data) ->
           exists data', t' !! path = Some (RegularFile perm data')).
Proof.
  unfold extract. intros Hextract.
  assert (kept t t') as Hkept.
  { destruct (if negb (fs.exists_ t dest_path) then fs.makedirs t dest_path else inr t)
      as [e|t1] eqn:Hdest; [discriminate|].
    assert (kept t t1) as H1.
    { destruct (negb (fs.exists_ t dest_path)).
      - by eapply makedirs_kept.
      - injection Hdest as <-. apply kept_refl. }
    destruct archive as [content|]; [|discriminate]. simpl in Hextract.
    destruct (extract_loop umask dest_path content t1) as [e|t2] eqn:Hloop; [discriminate|].
    injection Hextract as _ <-.
    eapply kept_trans; [exact H1|]. by eapply extract_loop_kept. }
  intros path. specialize (Hkept path). split.
  - intros Hdir. by rewrite Hdir in Hkept.
  - intros perm data Hfile. by rewrite Hfile in Hkept.
Qed.

Lemma extract_keeps_what_is_there_witness :
  exists t',
    extract 0x12 (Some example_absolute_archive) (str "out") example_full_tree
    = inr (true, t')
    /\ t' !! str "/srv" = Some Directory
    /\ exists data', t' !! str "/srv/123.txt" = Some (RegularFile 0x180 data').
Proof.
  assert (match extract 0x12 (Some example_absolute_archive) (str "out") example_full_tree with
          | inr (result, _) => result = true
          | inl _ => False
          end) as Hrun by (vm_compute; reflexivity).
  destruct (extract 0x12 (Some example_absolute_archive) (str "out") example_full_tree)
    as [e|[result t']] eqn:E; [contradiction|].
  subst result. exists t'. split; [reflexivity|].
  pose proof (extract_keeps_what_is_there _ _ _ _ _ _ E (str "/srv")) as [Hdir _].
  pose proof (extract_keeps_what_is_there _ _ _ _ _ _ E (str "/srv/123.txt")) as [_ Hfile].
  split; [apply Hdir; vm_compute; reflexivity|].
  apply (Hfile 0x180 (str "old")). vm_compute. reflexivity.
Defined.
